(** * LTE SRS toolkit: a shallow embedding of [lte_srs] and its properties

    The development follows the two modules of the package:
    [lte_srs/config.py] (the [SRSConfig], [HoppingState] and [MappingInfo]
    records) and [lte_srs/sequences.py] (the Gold-sequence generator, the
    hopping calculator, the frequency mapper and the orchestrator).

    Python integers are [Z]; numpy arrays are lists indexed the way numpy
    indexes them (a negative index counts from the end, an index out of
    range raises); exceptions are values of [result]. *)

From Stdlib Require Import ZArith Lia List String DecimalString.
From Stdlib Require Import Floats.PrimFloat.
From stdpp Require Import base list strings.
From Equations Require Import Equations.

Local Open Scope Z_scope.

(** ** Exceptions *)

Inductive PyError : Type :=
  | ValueError (msg : string)
  | IndexError (msg : string).

Inductive result (A : Type) : Type :=
  | Ok (a : A)
  | Raise (e : PyError).

Arguments Ok {A} a.
Arguments Raise {A} e.

Definition bind {A B : Type} (r : result A) (k : A -> result B) : result B :=
  match r with
  | Ok a => k a
  | Raise e => Raise e
  end.

Notation "'let*' x ':=' r 'in' k" := (bind r (fun x => k))
  (at level 10, x name, r at level 100, k at level 200).

Notation "'let*' ' pat ':=' r 'in' k" :=
  (bind r (fun x => match x with pat => k end))
  (at level 10, pat pattern, r at level 100, k at level 200).

(** [for n in range(lo, hi): s = body n s], stopping at the first exception. *)
Fixpoint for_each {I S : Type} (items : list I) (body : I -> S -> result S)
  (s : S) : result S :=
  match items with
  | [] => Ok s
  | n :: items' => let* s' := body n s in for_each items' body s'
  end.

(** [[f(x) for x in items]], stopping at the first exception. *)
Fixpoint map_result {I A : Type} (f : I -> result A) (items : list I)
  : result (list A) :=
  match items with
  | [] => Ok []
  | x :: items' =>
      let* v := f x in
      let* vs := map_result f items' in
      Ok (v :: vs)
  end.

Definition py_range (lo hi : Z) : list Z := seqZ lo (hi - lo).

Definition for_range {S : Type} (lo hi : Z) (body : Z -> S -> result S) (s : S)
  : result S :=
  for_each (py_range lo hi) body s.

(** [enumerate(seq)] *)
Definition enumerate {A : Type} (seq : list A) : list (Z * A) :=
  zip (py_range 0 (Z.of_nat (length seq))) seq.

(** [sum(...)] over integers *)
Definition py_sum (l : list Z) : Z := foldr Z.add 0 l.

(** [str(n)] for an integer, as an f-string renders it. *)
Definition py_str (n : Z) : string := NilZero.string_of_int (Z.to_int n).

(** Python floats are binary64 values; a complex number is a pair of them. *)
Definition complex : Type := float * float.

Definition czero : complex := (0%float, 0%float).

(** [z != 0] for a complex sample *)
Definition c_nonzero (z : complex) : bool :=
  negb (PrimFloat.eqb (fst z) 0 && PrimFloat.eqb (snd z) 0).

(** ** numpy arrays *)

Module np.

(** [np.zeros(n, dtype=int)]: a negative dimension is a [ValueError]. *)
Definition zeros {A : Type} (zero : A) (n : Z) : result (list A) :=
  if n <? 0 then Raise (ValueError "negative dimensions are not allowed")
  else Ok (replicate (Z.to_nat n) zero).

(** Position designated by the index [i] in an array of [len] elements. *)
Definition index (len : nat) (i : Z) : result nat :=
  if (0 <=? i) && (i <? Z.of_nat len) then Ok (Z.to_nat i)
  else if (- Z.of_nat len <=? i) && (i <? 0) then Ok (Z.to_nat (i + Z.of_nat len))
  else Raise (IndexError "index is out of bounds").

(** [a[i]] *)
Definition get {A : Type} (dflt : A) (a : list A) (i : Z) : result A :=
  let* k := index (length a) i in Ok (nth k a dflt).

(** [a[i] = v] *)
Definition set {A : Type} (a : list A) (i : Z) (v : A) : result (list A) :=
  let* k := index (length a) i in Ok (<[k := v]> a).

(** [a[k:]] for [0 <= k] *)
Definition slice_from {A : Type} (a : list A) (k : nat) : list A := drop k a.

(** [a[:k]]; a negative [k] counts from the end. *)
Definition slice_to {A : Type} (a : list A) (k : Z) : list A :=
  if 0 <=? k then take (Z.to_nat k) a
  else take (Z.to_nat (Z.of_nat (length a) + k)) a.

(** [np.fft.ifftshift(a)]: rotate left by [len(a) // 2]. *)
Definition fft_ifftshift {A : Type} (a : list A) : list A :=
  let s := (length a / 2)%nat in
  drop s a ++ take s a.

(** [np.count_nonzero(a)] *)
Definition count_nonzero (a : list complex) : nat :=
  length (List.filter c_nonzero a).

(** [a[i]] for an array or a Python list of any element type *)
Definition item {A : Type} (a : list A) (i : Z) : result A :=
  let* k := index (length a) i in
  match a !! k with
  | Some x => Ok x
  | None => Raise (IndexError "index is out of bounds")
  end.

(** [np.zeros((n, m))]: a two-dimensional array is the list of its rows. *)
Definition zeros2 {A : Type} (zero : A) (n m : Z) : result (list (list A)) :=
  if (n <? 0) || (m <? 0)
  then Raise (ValueError "negative dimensions are not allowed")
  else Ok (replicate (Z.to_nat n) (replicate (Z.to_nat m) zero)).

(** [a[i, j]] *)
Definition get2 {A : Type} (a : list (list A)) (i j : Z) : result A :=
  let* row := item a i in item row j.

(** [a[i, j] = v] *)
Definition set2 {A : Type} (a : list (list A)) (i j : Z) (v : A)
  : result (list (list A)) :=
  let* k := index (length a) i in
  let* row := item a i in
  let* row' := set row j v in
  Ok (<[k := row']> a).

(** [np.pi], the binary64 value nearest to pi *)
Definition pi : float := 0x1.921fb54442d18p+1%float.

End np.

(** The floating-point kernels of numpy that the package calls.  They are
    total on the arguments given below; the one exception numpy raises
    ([np.fft.ifft] on an empty array) is written out in [np_fft_ifft]. *)
Class Numerics : Type := {
  (** [np.exp(-1j * np.pi * u * n * (n + 1) / N_zc)] at one index [n] *)
  zc_phasor : Z -> Z -> Z -> complex;
  (** [np.exp(1j * alpha * n)] at one index [n] *)
  shift_phasor : float -> Z -> complex;
  (** product of two complex samples *)
  cmul : complex -> complex -> complex;
  (** inverse discrete Fourier transform of a non-empty array *)
  ifft_kernel : list complex -> list complex;
  (** [np.linalg.norm(a)] *)
  linalg_norm : list complex -> float;
  (** [np.correlate(a, b, mode="valid")[0]] for equal, non-zero lengths *)
  correlate_valid0 : list complex -> list complex -> complex;
  (** [abs(z)] *)
  cabs : complex -> float
}.

(** [np.fft.ifft(a)] *)
Definition np_fft_ifft `{Numerics} (a : list complex) : result (list complex) :=
  match a with
  | [] => Raise (ValueError "Invalid number of FFT data points (0) specified.")
  | _ :: _ => Ok (ifft_kernel a)
  end.

(** ** [config.py] *)

Module SRSConfig.

Record t : Type := mk {
  cell_id : Z;
  bandwidth_config : Z;
  subframe_config : Z;
  b_hop : Z;
  group_hopping_enabled : bool;
  sequence_hopping_enabled : bool;
  transmission_comb : Z;
  cyclic_shift : float;
  srs_bandwidth : Z;
  n_ul_rb : Z;
  n_zc : option Z
}.

Definition is_active_subframe (self : t) (subframe : Z) : bool :=
  if subframe_config self =? 0 then false
  else subframe mod subframe_config self =? 0.

Definition alpha (self : t) : float := cyclic_shift self.

Definition zc_length (self : t) : Z :=
  match n_zc self with
  | None => 839
  | Some n => n
  end.

Definition bandwidth_in_subcarriers (self : t) : Z :=
  let scaling := 2 ^ Z.max (bandwidth_config self) 0 in
  let raw := (srs_bandwidth self + 1) * 12 * scaling in
  let max_sc := n_ul_rb self * 12 in
  Z.min raw max_sc.

Definition comb_spacing (self : t) : Z := 2.

(** [__post_init__]: the checks run by the constructor. *)
Definition post_init (self : t) : result unit :=
  if negb ((0 <=? cell_id self) && (cell_id self <=? 503))
  then Raise (ValueError "cell_id must be between 0 and 503")
  else if negb ((transmission_comb self =? 0) || (transmission_comb self =? 1))
  then Raise (ValueError "transmission_comb (k_tc) must be 0 or 1")
  else if bandwidth_config self <? 0
  then Raise (ValueError "bandwidth_config (B_srs) must be non-negative")
  else if subframe_config self <? 0
  then Raise (ValueError "subframe_config (T_srs) must be non-negative")
  else if b_hop self <? 0
  then Raise (ValueError "b_hop must be non-negative")
  else if srs_bandwidth self <? 0
  then Raise (ValueError "srs_bandwidth (N_b) must be non-negative")
  else if n_ul_rb self <=? 0
  then Raise (ValueError "n_ul_rb must be positive")
  else Ok tt.

(** The configurations that exist at run time: those the constructor
    accepted. *)
Definition valid (self : t) : Prop := post_init self = Ok tt.

(** [SRSConfig(...)]: the dataclass constructor stores the fields and
    runs [__post_init__]. *)
Definition init (cell_id bandwidth_config subframe_config b_hop : Z)
  (group_hopping_enabled sequence_hopping_enabled : bool)
  (transmission_comb : Z) (cyclic_shift : float) (srs_bandwidth n_ul_rb : Z)
  (n_zc : option Z) : result t :=
  let self := mk cell_id bandwidth_config subframe_config b_hop
                group_hopping_enabled sequence_hopping_enabled
                transmission_comb cyclic_shift srs_bandwidth n_ul_rb n_zc in
  let* _ := post_init self in
  Ok self.

End SRSConfig.

Module HoppingState.

Record t : Type := mk {
  group_number : Z;
  sequence_number : Z;
  f_gh : Z;
  f_ss : Z
}.

End HoppingState.

Module MappingInfo.

Record t : Type := mk {
  subframe_index : Z;
  slot_index : Z;
  root_index : Z;
  alpha : float;
  m_sc : Z;
  comb : Z;
  n_fft : Z;
  k0 : Z;
  hopping : HoppingState.t
}.

End MappingInfo.

(** ** [sequences.generate_prs] *)

Definition generate_prs (c_init length : Z) : result (list Z) :=
  let* x1 := np.zeros 0 (length + 31) in
  let* x2 := np.zeros 0 (length + 31) in
  let* x1 := np.set x1 0 1 in
  let* x1 := for_range 1 (length + 31) (fun n x1 =>
          let* a := np.get 0 x1 (n - 3) in
          let* b := np.get 0 x1 (n - 31) in
          np.set x1 n ((a + b) mod 2)) x1 in
  let* x2 := for_range 0 31 (fun n x2 =>
          np.set x2 n (Z.land (Z.shiftr c_init n) 1)) x2 in
  let* x2 := for_range 31 (length + 31) (fun n x2 =>
          let* a := np.get 0 x2 (n - 3) in
          let* b := np.get 0 x2 (n - 2) in
          let* c := np.get 0 x2 (n - 1) in
          let* d := np.get 0 x2 (n - 31) in
          np.set x2 n ((a + b + c + d) mod 2)) x2 in
  let c := zip_with (fun a b => (a + b) mod 2)
                    (np.slice_from x1 31) (np.slice_from x2 31) in
  Ok (np.slice_to c length).

(** ** [sequences.group_and_sequence_hopping] *)

Definition group_and_sequence_hopping (config : SRSConfig.t) (slot_index : Z)
  : result HoppingState.t :=
  let f_ss := SRSConfig.cell_id config mod 30 in
  let* f_gh :=
    if SRSConfig.group_hopping_enabled config then
      let c_init := ((slot_index / 2 + 1) * (SRSConfig.cell_id config + 1) * 2 ^ 9
                     + SRSConfig.cell_id config) mod 2 ^ 31 in
      let* c := generate_prs c_init (8 * (slot_index + 1)) in
      let start := 8 * slot_index in
      let* terms := map_result (fun i =>
                      let* bit := np.get 0 c (start + i) in
                      Ok (Z.shiftl bit i)) (py_range 0 8) in
      Ok (py_sum terms mod 30)
    else Ok 0 in
  let group_number := (f_ss + f_gh) mod 30 in
  let seq_shift :=
    if SRSConfig.sequence_hopping_enabled config then f_gh mod 30 else 0 in
  let sequence_number := (group_number + seq_shift) mod 30 in
  Ok (HoppingState.mk group_number sequence_number f_gh f_ss).

(** ** [sequences.generate_zadoff_chu] and [sequences.apply_cyclic_shift] *)

Definition generate_zadoff_chu `{Numerics} (u N_zc : Z) : list complex :=
  map (fun n => zc_phasor u n N_zc) (py_range 0 N_zc).

Definition apply_cyclic_shift `{Numerics} (seq : list complex) (alpha : float)
  : list complex :=
  zip_with (fun value n => cmul value (shift_phasor alpha n))
           seq (py_range 0 (Z.of_nat (length seq))).

(** ** [sequences.map_to_frequency_grid] *)

(** The loop of the mapper: the grid in the FFT-shifted domain. *)
Definition fill_grid (seq : list complex) (k0 spacing n_fft : Z)
  (grid_shifted : list complex) : result (list complex) :=
  for_each (enumerate seq) (fun '(m, value) grid_shifted =>
    let k := k0 + m * spacing in
    if (0 <=? k) && (k <? n_fft) then np.set grid_shifted k value
    else Ok grid_shifted) grid_shifted.

Definition map_to_frequency_grid (seq : list complex) (config : SRSConfig.t)
  (n_fft : Z) : result (list complex * Z) :=
  let* grid_shifted := np.zeros czero n_fft in
  let spacing := SRSConfig.comb_spacing config in
  let center := n_fft / 2 in
  let m_sc := Z.of_nat (length seq) in
  let k0 := center - (m_sc / 2) * spacing + SRSConfig.transmission_comb config in
  let* grid_shifted := fill_grid seq k0 spacing n_fft grid_shifted in
  let freq_grid := np.fft_ifftshift grid_shifted in
  Ok (freq_grid, k0).

(** ** [sequences.generate_srs] *)

Definition default_n_fft : Z := 2048.

Definition inactive_message (subframe_index : Z) (config : SRSConfig.t) : string :=
  "Subframe " +:+ py_str subframe_index
  +:+ " is not active for this UE (T_srs="
  +:+ py_str (SRSConfig.subframe_config config) +:+ ").".

Definition generate_srs `{Numerics} (config : SRSConfig.t) (subframe_index : Z)
  (n_fft : Z) : result (list complex * MappingInfo.t) :=
  if negb (SRSConfig.is_active_subframe config subframe_index)
  then Raise (ValueError (inactive_message subframe_index config))
  else
    let slot_index := subframe_index * 2 in
    let* hopping := group_and_sequence_hopping config slot_index in
    let root_index := HoppingState.sequence_number hopping in
    let N_zc := SRSConfig.zc_length config in
    let base_seq := generate_zadoff_chu root_index N_zc in
    let m_sc := SRSConfig.bandwidth_in_subcarriers config in
    let truncated_seq := np.slice_to base_seq m_sc in
    let shifted_seq := apply_cyclic_shift truncated_seq (SRSConfig.alpha config) in
    let* '(freq_grid, k0) := map_to_frequency_grid shifted_seq config n_fft in
    let* time_signal := np_fft_ifft freq_grid in
    let info := MappingInfo.mk subframe_index slot_index root_index
                  (SRSConfig.alpha config) m_sc
                  (SRSConfig.transmission_comb config) n_fft k0 hopping in
    Ok (time_signal, info).

(** ** [sequences.normalized_cross_correlation] *)

Definition normalized_cross_correlation `{Numerics} (a b : list complex)
  : result float :=
  if negb (length a =? length b)%nat
  then Raise (ValueError "Signals must be the same length for correlation")
  else
    let norm_a := linalg_norm a in
    let norm_b := linalg_norm b in
    if PrimFloat.eqb norm_a 0 || PrimFloat.eqb norm_b 0 then Ok 0%float
    else
      let corr := correlate_valid0 a b in
      Ok (PrimFloat.div (cabs corr) (PrimFloat.mul norm_a norm_b)).

(** ** [srs_tester.py] *)

Module SRSResult.

Record t : Type := mk {
  signal : list complex;
  info : MappingInfo.t
}.

End SRSResult.

(** [itertools.product(l, repeat=2)] *)
Definition itertools_product2 {A : Type} (l : list A) : list (A * A) :=
  list_prod l l.

Definition build_configurations : result (list SRSConfig.t) :=
  let bandwidth_config := 2 in
  let subframe_config := 2 in
  let b_hop := 1 in
  let n_ul_rb := 50 in
  map_result (fun '(cell, gh, sh, comb, alpha, n_b) =>
      SRSConfig.init cell bandwidth_config subframe_config b_hop gh sh comb
                     alpha n_b n_ul_rb None)
    [ (0, true, false, 0, 0%float, 0);
      (1, true, true, 1, (np.pi / 4)%float, 1);
      (12, false, true, 0, (np.pi / 2)%float, 2);
      (37, false, false, 1, (3 * np.pi / 4)%float, 3) ].

Definition generate_signals `{Numerics} (configs : list SRSConfig.t)
  (subframe : Z) : result (list SRSResult.t) :=
  for_each configs (fun cfg results =>
    let* '(sig, info) := generate_srs cfg subframe default_n_fft in
    Ok (results ++ [SRSResult.mk sig info])) [].

Definition correlation_matrix `{Numerics} (results : list SRSResult.t)
  : result (list (list float)) :=
  let n := Z.of_nat (length results) in
  let* corr := np.zeros2 0%float n n in
  for_each (itertools_product2 (py_range 0 n)) (fun '(i, j) corr =>
    let* ri := np.item results i in
    let* rj := np.item results j in
    let* v := normalized_cross_correlation (SRSResult.signal ri)
                                           (SRSResult.signal rj) in
    np.set2 corr i j v) corr.

Definition default_threshold : float := 0x1.3333333333333p-2%float.

Definition highlight_pairs (corr : list (list float)) (threshold : float)
  : result (list (Z * Z * float)) :=
  let n := Z.of_nat (length corr) in
  for_range 0 n (fun i pairs =>
    for_range (i + 1) n (fun j pairs =>
      let* v := np.get2 corr i j in
      if PrimFloat.ltb threshold v then Ok (pairs ++ [(i, j, v)])
      else Ok pairs) pairs) [].

(** ** The specification's own definitions *)

(** The two shift-register sequences as the specification writes them
    (section 4.2): a recurrence on the index, with no array behind it. *)

Equations x1_spec (n : nat) : Z by wf n lt :=
  x1_spec 0 := 1;
  x1_spec 1 := 0;
  x1_spec 2 := 0;
  x1_spec n := (x1_spec (n - 3)
                + (if (n <? 31)%nat then 0 else x1_spec (n - 31))) mod 2.
Next Obligation. lia. Qed.
Next Obligation. lia. Qed.

Equations x2_spec (c_init : Z) (n : nat) : Z by wf n lt :=
  x2_spec c_init n with lt_dec n 31 := {
    | left _ => Z.b2z (Z.testbit c_init (Z.of_nat n));
    | right _ => (x2_spec c_init (n - 3) + x2_spec c_init (n - 2)
                  + x2_spec c_init (n - 1) + x2_spec c_init (n - 31)) mod 2 }.
Next Obligation. lia. Qed.
Next Obligation. lia. Qed.
Next Obligation. lia. Qed.
Next Obligation. lia. Qed.

(** Number of sequence elements, counted from index [m] on, that are
    non-zero and whose bin [k0 + 2 * m] lies inside [[0, n_fft)]. *)
Fixpoint landed_nonzero (k0 n_fft m : Z) (seq : list complex) : nat :=
  match seq with
  | [] => 0
  | value :: seq' =>
      let hit : nat :=
        if (0 <=? k0 + m * 2) && (k0 + m * 2 <? n_fft) && c_nonzero value
        then 1%nat else 0%nat in
      (hit + landed_nonzero k0 n_fft (m + 1) seq')%nat
  end.

(** [includes part whole]: the text [part] occurs inside [whole]. *)
Definition includes (part whole : string) : Prop :=
  exists pre post, whole = pre +:+ part +:+ post.

(** Output element [n] of the specification. *)
Definition gold_spec (c_init : Z) (n : nat) : Z :=
  (x1_spec (n + 31) + x2_spec c_init (n + 31)) mod 2.


(** The hopping offset as the specification writes it: the eight bits of
    [c] from position [start] on, weighted by the powers of two. *)
Definition weighted_bits (c : list Z) (start : Z) : Z :=
  py_sum (map (fun i => nth (Z.to_nat (start + i)) c 0 * 2 ^ i) (seqZ 0 8)).

(** The seed of the hopping sequence (section 4.3). *)
Definition hopping_seed (cfg : SRSConfig.t) (slot : Z) : Z :=
  ((slot / 2 + 1) * (SRSConfig.cell_id cfg + 1) * 2 ^ 9
   + SRSConfig.cell_id cfg) mod 2 ^ 31.

(** [cfg] with its sequence-hopping flag set to [flag]. *)
Definition with_sequence_hopping (cfg : SRSConfig.t) (flag : bool)
  : SRSConfig.t :=
  SRSConfig.mk (SRSConfig.cell_id cfg) (SRSConfig.bandwidth_config cfg)
    (SRSConfig.subframe_config cfg) (SRSConfig.b_hop cfg)
    (SRSConfig.group_hopping_enabled cfg) flag
    (SRSConfig.transmission_comb cfg) (SRSConfig.cyclic_shift cfg)
    (SRSConfig.srs_bandwidth cfg) (SRSConfig.n_ul_rb cfg) (SRSConfig.n_zc cfg).

(** [filled f size n a]: the array [a] of [size] cells holds [f] below
    position [n] and is still zero from [n] on. *)
Definition filled (f : nat -> Z) (size : nat) (n : Z) (a : list Z) : Prop :=
  length a = size /\
  forall i : nat, (i < size)%nat ->
    a !! i = Some (if Z.of_nat i <? n then f i else 0).

(** [shape n m a]: the two-dimensional array [a] has [n] rows of [m]
    cells. *)
Definition shape {A : Type} (n m : nat) (a : list (list A)) : Prop :=
  length a = n /\ Forall (fun row => length row = m) a.

(** The cell of row [i] and column [j], when there is one. *)
Definition cell {A : Type} (a : list (list A)) (i j : nat) : option A :=
  match a !! i with
  | Some row => row !! j
  | None => None
  end.

(** One pass of the loop of [generate_signals]. *)
Definition signal_of `{Numerics} (subframe : Z) (cfg : SRSConfig.t)
  : result SRSResult.t :=
  let* '(sig, info) := generate_srs cfg subframe default_n_fft in
  Ok (SRSResult.mk sig info).

(** ** The kernels of the correlation metric in binary64

    [normalized_cross_correlation] calls three numpy kernels on complex128
    arrays; all three are sums, products, a square root and a quotient of
    binary64 numbers, written here with their rounding. *)

(** [x.dot(y)] for two real arrays *)
Definition np_dot (x y : list float) : float :=
  fold_left (fun acc '(p, q) => (acc + p * q)%float) (zip x y) 0%float.

(** [np.linalg.norm(x)] for a one-dimensional complex array:
    [sqrt(x.real.dot(x.real) + x.imag.dot(x.imag))]. *)
Definition np_linalg_norm (x : list complex) : float :=
  let x_real := map fst x in
  let x_imag := map snd x in
  let sqnorm := (np_dot x_real x_real + np_dot x_imag x_imag)%float in
  PrimFloat.sqrt sqnorm.

Definition c_add (a b : complex) : complex :=
  ((fst a + fst b)%float, (snd a + snd b)%float).

Definition c_conj (a : complex) : complex := (fst a, (- snd a)%float).

Definition c_mul (a b : complex) : complex :=
  ((fst a * fst b - snd a * snd b)%float,
   (fst a * snd b + snd a * fst b)%float).

(** [np.correlate(a, b, mode="valid")[0]] for arrays of one length: the
    sum of [a[n] * conj(b[n])]. *)
Definition np_correlate_valid0 (a b : list complex) : complex :=
  fold_left (fun acc '(p, q) => c_add acc (c_mul p (c_conj q))) (zip a b) czero.

(** [abs(z)], the hypotenuse of the two parts: exact when one part is
    zero, the rounded square root of the sum of squares otherwise. *)
Definition py_abs (z : complex) : float :=
  if PrimFloat.eqb (snd z) 0 then PrimFloat.abs (fst z)
  else if PrimFloat.eqb (fst z) 0 then PrimFloat.abs (snd z)
  else PrimFloat.sqrt (fst z * fst z + snd z * snd z)%float.

(** The kernels [K] with the three correlation kernels as numpy computes
    them. *)
Definition numpy_correlation (K : Numerics) : Numerics := {|
  zc_phasor := @zc_phasor K;
  shift_phasor := @shift_phasor K;
  cmul := @cmul K;
  ifft_kernel := @ifft_kernel K;
  linalg_norm := np_linalg_norm;
  correlate_valid0 := np_correlate_valid0;
  cabs := py_abs
|}.

(** ** Configurations and kernels used in the examples *)

(** The first configuration of [srs_tester.build_configurations]. *)
Definition tester_config : SRSConfig.t :=
  SRSConfig.mk 0 2 2 1 true false 0 0%float 0 50 None.

(** The second configuration of [srs_tester.build_configurations]: both
    kinds of hopping, comb 1, a shift of pi/4. *)
Definition tester_config_hopping : SRSConfig.t :=
  SRSConfig.mk 1 2 2 1 true true 1 0x1.921fb54442d18p-1%float 1 50 None.

(** The third configuration of [srs_tester.build_configurations], its
    cyclic shift left at 0: sequence hopping without group hopping. *)
Definition tester_config_no_group_hopping : SRSConfig.t :=
  SRSConfig.mk 12 2 2 1 false true 0 0%float 2 50 None.

(** The default Zadoff-Chu length, 839, under a span of 1200 subcarriers. *)
Definition wide_config : SRSConfig.t :=
  SRSConfig.mk 0 7 2 1 false false 0 0%float 3 100 None.

(** A one-sample sequence whose sample is 0j. *)
Definition zero_sample : list complex := [czero].

(** A kernel to run examples with: unit phasors and an identity
    transform. *)
Definition unit_numerics : Numerics := {|
  zc_phasor := fun _ _ _ => (1%float, 0%float);
  shift_phasor := fun _ _ => (1%float, 0%float);
  cmul := fun a _ => a;
  ifft_kernel := fun a => a;
  linalg_norm := fun _ => 1%float;
  correlate_valid0 := fun _ _ => (1%float, 0%float);
  cabs := fun _ => 1%float
|}.

(** A configuration with a periodicity of 3. *)
Definition period_3_config : SRSConfig.t :=
  SRSConfig.mk 5 2 3 1 false false 0 0%float 0 50 None.

(** Short signals: three unit samples; a sample of modulus [2^-600] and
    one of modulus [2^600]; and three two-sample signals. *)
Definition cone : complex := (1%float, 0%float).

Definition ones_signal : list complex := [cone; cone; cone].



(** The [MappingInfo] of [tester_config_hopping] on subframe 4 with a
    64-point transform. *)
Definition sample_info : MappingInfo.t :=
  MappingInfo.mk 4 8 13 0x1.921fb54442d18p-1%float 96 1 64 (-63)
    (HoppingState.mk 22 13 21 1).

Definition sample_results : list SRSResult.t :=
  [ SRSResult.mk [cone; czero] sample_info;
    SRSResult.mk [czero; cone] sample_info;
    SRSResult.mk [cone; cone] sample_info ].

(** * Properties *)

(** ** Loops *)

Lemma py_range_nil (lo hi : Z) : hi <= lo -> py_range lo hi = [].
Proof.
  intros Hle. unfold py_range, seqZ.
  replace (Z.to_nat (hi - lo)) with 0%nat by lia. reflexivity.
Qed.

Lemma py_range_cons (lo hi : Z) :
  lo < hi -> py_range lo hi = lo :: py_range (lo + 1) hi.
Proof.
  intros Hlt. unfold py_range.
  rewrite seqZ_cons by lia. do 2 f_equal; lia.
Qed.

Lemma py_range_length (lo hi : Z) :
  length (py_range lo hi) = Z.to_nat (hi - lo).
Proof. unfold py_range. apply length_seqZ. Qed.

(** A loop that keeps an invariant runs to its end without raising. *)
Lemma for_range_invariant {S : Type} (P : Z -> S -> Prop) (lo hi : Z)
  (body : Z -> S -> result S) (s : S) :
  lo <= hi ->
  P lo s ->
  (forall n t, lo <= n < hi -> P n t -> exists t', body n t = Ok t' /\ P (n + 1) t') ->
  exists s', for_range lo hi body s = Ok s' /\ P hi s'.
Proof.
  intros Hle. remember (Z.to_nat (hi - lo)) as d eqn:Hd.
  revert lo s Hle Hd. induction d as [|d IH]; intros lo s Hle Hd H0 Hstep.
  - assert (lo = hi) as -> by lia.
    exists s. unfold for_range. rewrite py_range_nil by lia. auto.
  - unfold for_range. rewrite py_range_cons by lia. simpl.
    destruct (Hstep lo s ltac:(lia) H0) as (t & Hb & Ht). rewrite Hb. simpl.
    apply (IH (lo + 1) t); [lia | lia | exact Ht |].
    intros n u Hn. apply Hstep. lia.
Qed.

(** ** Arrays *)

Lemma np_index_nonneg (len : nat) (i : Z) :
  0 <= i < Z.of_nat len -> np.index len i = Ok (Z.to_nat i).
Proof.
  intros Hi. unfold np.index.
  destruct (Z.leb_spec 0 i), (Z.ltb_spec i (Z.of_nat len)); simpl; auto; lia.
Qed.

Lemma np_index_neg (len : nat) (i : Z) :
  - Z.of_nat len <= i < 0 -> np.index len i = Ok (Z.to_nat (i + Z.of_nat len)).
Proof.
  intros Hi. unfold np.index.
  destruct (Z.leb_spec 0 i); [lia|]. simpl.
  destruct (Z.leb_spec (- Z.of_nat len) i), (Z.ltb_spec i 0); simpl; auto; lia.
Qed.

Lemma np_index_out (len : nat) (i : Z) :
  i < - Z.of_nat len \/ Z.of_nat len <= i ->
  exists msg, np.index len i = Raise (IndexError msg).
Proof.
  intros Hi. unfold np.index.
  destruct (Z.leb_spec 0 i), (Z.ltb_spec i (Z.of_nat len)),
    (Z.leb_spec (- Z.of_nat len) i), (Z.ltb_spec i 0); simpl; eauto; lia.
Qed.

Lemma filled_zeros (f : nat -> Z) (size : nat) :
  filled f size 0 (replicate size 0).
Proof.
  split; [apply length_replicate|].
  intros i Hi. rewrite lookup_replicate_2 by lia.
  destruct (Z.ltb_spec (Z.of_nat i) 0); [lia | reflexivity].
Qed.

(** Reading a cell already written. *)
Lemma get_filled_below (f : nat -> Z) (size : nat) (n i : Z) (a : list Z) :
  filled f size n a -> 0 <= i < n -> n <= Z.of_nat size ->
  np.get 0 a i = Ok (f (Z.to_nat i)).
Proof.
  intros [Hlen Ha] Hi Hn. unfold np.get.
  rewrite np_index_nonneg by lia. simpl.
  rewrite nth_lookup, Ha by lia.
  destruct (Z.ltb_spec (Z.of_nat (Z.to_nat i)) n); [reflexivity | lia].
Qed.

(** Reading through a negative index a cell not written yet. *)
Lemma get_filled_wrap (f : nat -> Z) (size : nat) (n i : Z) (a : list Z) :
  filled f size n a -> - Z.of_nat size <= i < 0 -> n <= i + Z.of_nat size ->
  np.get 0 a i = Ok 0.
Proof.
  intros [Hlen Ha] Hi Hn. subst size. unfold np.get.
  rewrite np_index_neg by lia. simpl.
  rewrite nth_lookup, Ha by lia.
  destruct (Z.ltb_spec (Z.of_nat (Z.to_nat (i + Z.of_nat (length a)))) n);
    [lia | reflexivity].
Qed.

(** Writing the next cell. *)
Lemma set_filled (f : nat -> Z) (size : nat) (n v : Z) (a : list Z) :
  filled f size n a -> 0 <= n < Z.of_nat size -> v = f (Z.to_nat n) ->
  exists a', np.set a n v = Ok a' /\ filled f size (n + 1) a'.
Proof.
  intros [Hlen Ha] Hn ->. unfold np.set.
  rewrite np_index_nonneg by lia. simpl. eexists; split; [reflexivity|].
  split; [rewrite length_insert; exact Hlen|].
  intros i Hi. destruct (decide (i = Z.to_nat n)) as [->|Hne].
  - rewrite list_lookup_insert_eq by lia.
    destruct (Z.ltb_spec (Z.of_nat (Z.to_nat n)) (n + 1)); [reflexivity | lia].
  - rewrite list_lookup_insert_ne by auto. rewrite Ha by lia.
    destruct (Z.ltb_spec (Z.of_nat i) n), (Z.ltb_spec (Z.of_nat i) (n + 1));
      auto; lia.
Qed.

Lemma filled_all (f : nat -> Z) (size : nat) (a : list Z) :
  filled f size (Z.of_nat size) a -> a = map f (seq 0 size).
Proof.
  intros [Hlen Ha]. apply list_eq. intros i.
  destruct (decide (i < size)%nat) as [Hi|Hi].
  - rewrite Ha by lia.
    destruct (Z.ltb_spec (Z.of_nat i) (Z.of_nat size)); [|lia].
    change (map f (seq 0 size)) with (f <$> seq 0 size).
    rewrite list_lookup_fmap, lookup_seq_lt by lia. reflexivity.
  - rewrite !lookup_ge_None_2; auto.
    + rewrite length_map, length_seq. lia.
    + lia.
Qed.

(** ** The Gold sequence *)

Lemma x1_spec_step (n : nat) :
  (3 <= n)%nat ->
  x1_spec n = (x1_spec (n - 3)
               + (if (n <? 31)%nat then 0 else x1_spec (n - 31))) mod 2.
Proof.
  intros Hn. destruct n as [|[|[|n]]]; try lia.
  rewrite x1_spec_equation_4. reflexivity.
Qed.

Lemma x2_spec_seed (c_init : Z) (n : nat) :
  (n < 31)%nat -> x2_spec c_init n = Z.b2z (Z.testbit c_init (Z.of_nat n)).
Proof.
  intros Hn. rewrite x2_spec_equation_1.
  destruct (lt_dec n 31); [reflexivity | lia].
Qed.

Lemma x2_spec_step (c_init : Z) (n : nat) :
  (31 <= n)%nat ->
  x2_spec c_init n = (x2_spec c_init (n - 3) + x2_spec c_init (n - 2)
                      + x2_spec c_init (n - 1) + x2_spec c_init (n - 31)) mod 2.
Proof.
  intros Hn. rewrite x2_spec_equation_1.
  destruct (lt_dec n 31); [lia | reflexivity].
Qed.

(** [(c_init >> n) & 1] is bit [n] of the seed. *)
Lemma shift_and_one (c_init n : Z) :
  0 <= n -> Z.land (Z.shiftr c_init n) 1 = Z.b2z (Z.testbit c_init n).
Proof.
  intros Hn. change 1 with (Z.ones 1).
  rewrite Z.land_ones by lia. rewrite Z.shiftr_div_pow2 by lia.
  rewrite Z.testbit_spec' by lia. reflexivity.
Qed.

Lemma prs_x1_loop (l : nat) (a : list Z) :
  filled x1_spec (l + 31) 1 a ->
  for_range 1 (Z.of_nat l + 31) (fun n x1 =>
    let* a := np.get 0 x1 (n - 3) in
    let* b := np.get 0 x1 (n - 31) in
    np.set x1 n ((a + b) mod 2)) a
  = Ok (map x1_spec (seq 0 (l + 31))).
Proof.
  intros Ha.
  destruct (for_range_invariant (filled x1_spec (l + 31)) 1 (Z.of_nat l + 31)
    (fun n x1 =>
       let* a := np.get 0 x1 (n - 3) in
       let* b := np.get 0 x1 (n - 31) in
       np.set x1 n ((a + b) mod 2)) a) as (x1 & Hrun & Hx1); [lia | exact Ha | |].
  - intros n t Hn Ht.
    assert (Hstep : x1_spec (Z.to_nat n)
                    = ((if 3 <=? n then x1_spec (Z.to_nat (n - 3)) else 0)
                       + (if 31 <=? n then x1_spec (Z.to_nat (n - 31)) else 0)) mod 2).
    { destruct (Z.leb_spec 3 n).
      - rewrite x1_spec_step by lia.
        replace (Z.to_nat n - 3)%nat with (Z.to_nat (n - 3)) by lia.
        replace (Z.to_nat n - 31)%nat with (Z.to_nat (n - 31)) by lia.
        destruct (Z.leb_spec 31 n), (Nat.ltb_spec (Z.to_nat n) 31);
          try lia; reflexivity.
      - destruct (Z.leb_spec 31 n); [lia|].
        assert (n = 1 \/ n = 2) as [-> | ->] by lia; reflexivity. }
    assert (Hg3 : np.get 0 t (n - 3)
                  = Ok (if 3 <=? n then x1_spec (Z.to_nat (n - 3)) else 0)).
    { destruct (Z.leb_spec 3 n).
      - apply (get_filled_below _ _ _ _ _ Ht); lia.
      - apply (get_filled_wrap _ _ _ _ _ Ht); lia. }
    assert (Hg31 : np.get 0 t (n - 31)
                   = Ok (if 31 <=? n then x1_spec (Z.to_nat (n - 31)) else 0)).
    { destruct (Z.leb_spec 31 n).
      - apply (get_filled_below _ _ _ _ _ Ht); lia.
      - apply (get_filled_wrap _ _ _ _ _ Ht); lia. }
    rewrite Hg3, Hg31. simpl.
    apply (set_filled _ _ _ _ _ Ht); [lia | symmetry; exact Hstep].
  - rewrite Hrun. f_equal. apply filled_all.
    replace (Z.of_nat (l + 31)) with (Z.of_nat l + 31) by lia. exact Hx1.
Qed.

Lemma prs_x2_seed_loop (c_init : Z) (l : nat) :
  exists x2,
    for_range 0 31 (fun n x2 =>
      np.set x2 n (Z.land (Z.shiftr c_init n) 1)) (replicate (l + 31) 0)
    = Ok x2 /\ filled (x2_spec c_init) (l + 31) 31 x2.
Proof.
  apply (for_range_invariant (filled (x2_spec c_init) (l + 31))); [lia | |].
  - apply filled_zeros.
  - intros n t Hn Ht. apply (set_filled _ _ _ _ _ Ht); [lia|].
    rewrite x2_spec_seed by lia. rewrite shift_and_one by lia.
    do 2 f_equal. lia.
Qed.

Lemma prs_x2_loop (c_init : Z) (l : nat) (a : list Z) :
  filled (x2_spec c_init) (l + 31) 31 a ->
  for_range 31 (Z.of_nat l + 31) (fun n x2 =>
    let* a := np.get 0 x2 (n - 3) in
    let* b := np.get 0 x2 (n - 2) in
    let* c := np.get 0 x2 (n - 1) in
    let* d := np.get 0 x2 (n - 31) in
    np.set x2 n ((a + b + c + d) mod 2)) a
  = Ok (map (x2_spec c_init) (seq 0 (l + 31))).
Proof.
  intros Ha.
  destruct (for_range_invariant (filled (x2_spec c_init) (l + 31)) 31
    (Z.of_nat l + 31)
    (fun n x2 =>
       let* a := np.get 0 x2 (n - 3) in
       let* b := np.get 0 x2 (n - 2) in
       let* c := np.get 0 x2 (n - 1) in
       let* d := np.get 0 x2 (n - 31) in
       np.set x2 n ((a + b + c + d) mod 2)) a) as (x2 & Hrun & Hx2);
    [lia | exact Ha | |].
  - intros n t Hn Ht.
    rewrite !(get_filled_below _ _ _ _ _ Ht) by lia. simpl.
    apply (set_filled _ _ _ _ _ Ht); [lia|].
    rewrite (x2_spec_step c_init (Z.to_nat n)) by lia.
    replace (Z.to_nat n - 3)%nat with (Z.to_nat (n - 3)) by lia.
    replace (Z.to_nat n - 2)%nat with (Z.to_nat (n - 2)) by lia.
    replace (Z.to_nat n - 1)%nat with (Z.to_nat (n - 1)) by lia.
    replace (Z.to_nat n - 31)%nat with (Z.to_nat (n - 31)) by lia.
    reflexivity.
  - rewrite Hrun. f_equal. apply filled_all.
    replace (Z.of_nat (l + 31)) with (Z.of_nat l + 31) by lia. exact Hx2.
Qed.

(** The generator computes the specification's sequence: for a length
    [l >= 0] it returns, without raising, the list of [gold_spec c_init n]
    for [n] below [l]. *)
Lemma generate_prs_gold (c_init : Z) (l : nat) :
  generate_prs c_init (Z.of_nat l) = Ok (map (gold_spec c_init) (seq 0 l)).
Proof.
  unfold generate_prs, np.zeros.
  destruct (Z.ltb_spec (Z.of_nat l + 31) 0); [lia|]. cbn [bind].
  replace (Z.to_nat (Z.of_nat l + 31)) with (l + 31)%nat by lia.
  destruct (set_filled x1_spec (l + 31) 0 1 (replicate (l + 31) 0))
    as (a1 & Hset & Ha1); [apply filled_zeros | lia | reflexivity |].
  rewrite Hset. cbn [bind].
  rewrite (prs_x1_loop l a1 Ha1). cbn [bind].
  destruct (prs_x2_seed_loop c_init l) as (a2 & Hseed & Ha2).
  rewrite Hseed. cbn [bind].
  rewrite (prs_x2_loop c_init l a2 Ha2). cbn [bind].
  f_equal. unfold np.slice_to, np.slice_from.
  destruct (Z.leb_spec 0 (Z.of_nat l)); [|lia].
  rewrite Nat2Z.id.
  apply list_eq. intros i.
  destruct (decide (i < l)%nat) as [Hi|Hi].
  - rewrite lookup_take_lt by lia.
    rewrite lookup_zip_with. rewrite !lookup_drop.
    change (map ?f ?l) with (f <$> l).
    rewrite !list_lookup_fmap, !lookup_seq_lt by lia. simpl.
    unfold gold_spec. rewrite (Nat.add_comm i 31). reflexivity.
  - rewrite lookup_take_ge by lia.
    symmetry. apply lookup_ge_None_2.
    rewrite length_map, length_seq. lia.
Qed.

Example generate_prs_seed_1 :
  generate_prs 1 10 = Ok [0; 1; 1; 0; 1; 0; 1; 0; 0; 1].
Proof. reflexivity. Qed.

Example generate_prs_negative_seed :
  generate_prs (-7) 6 = Ok [1; 0; 0; 0; 0; 1].
Proof. reflexivity. Qed.

Example generate_prs_length_minus_1 :
  generate_prs 5 (-1) = Raise (IndexError "index is out of bounds").
Proof. reflexivity. Qed.

Example generate_prs_length_minus_32 :
  generate_prs 5 (-32)
  = Raise (ValueError "negative dimensions are not allowed").
Proof. reflexivity. Qed.

(** A negative length always ends in an exception: [np.zeros] refuses a
    negative dimension, and an array shorter than 31 cells is indexed out
    of range while the registers are initialised. *)
Lemma generate_prs_negative (c_init L : Z) :
  L < 0 -> exists e, generate_prs c_init L = Raise e.
Proof.
  intros HL. destruct (Z.ltb_spec (L + 31) 0) as [Hsmall|Hbig].
  - unfold generate_prs, np.zeros.
    destruct (Z.ltb_spec (L + 31) 0); [|lia]. simpl. eauto.
  - assert (exists k : nat, (k <= 30)%nat /\ L = Z.of_nat k - 31) as (k & Hk & ->).
    { exists (Z.to_nat (L + 31)). lia. }
    do 31 (destruct k as [|k]; [vm_compute; eauto|]). lia.
Qed.

Lemma generate_prs_nonneg (c_init L : Z) :
  0 <= L ->
  generate_prs c_init L = Ok (map (gold_spec c_init) (seq 0 (Z.to_nat L))).
Proof.
  intros HL. rewrite <- (Z2Nat.id L) at 1 by lia. apply generate_prs_gold.
Qed.

Lemma gold_spec_bit (c_init : Z) (n : nat) :
  gold_spec c_init n = 0 \/ gold_spec c_init n = 1.
Proof.
  unfold gold_spec.
  pose proof (Z.mod_pos_bound (x1_spec (n + 31) + x2_spec c_init (n + 31)) 2).
  lia.
Qed.

(** C3. For every seed and every non-negative length [L], [generate_prs]
    returns a sequence of [L] elements whose element [n] is
    [(x1[n+31] + x2[n+31]) mod 2], where [x1] and [x2] are the sequences
    of the specification: [x1[0] = 1], [x1[1] = x1[2] = 0],
    [x1[n] = (x1[n-3] + x1[n-31]) mod 2] from 3 on (a term with a negative
    index counting as 0); [x2[n]] is bit [n] of the seed below 31 and
    [(x2[n-3] + x2[n-2] + x2[n-1] + x2[n-31]) mod 2] from 31 on. *)
Theorem generate_prs_refines_spec (c_init L : Z) :
  0 <= L ->
  exists c,
    generate_prs c_init L = Ok c /\
    length c = Z.to_nat L /\
    forall n : nat, (n < Z.to_nat L)%nat ->
      c !! n = Some ((x1_spec (n + 31) + x2_spec c_init (n + 31)) mod 2).
Proof.
  intros HL. eexists. split; [apply generate_prs_nonneg, HL|]. split.
  - rewrite length_map, length_seq. reflexivity.
  - intros n Hn. change (map ?f ?l) with (f <$> l).
    rewrite list_lookup_fmap, lookup_seq_lt by lia. reflexivity.
Qed.

Lemma generate_prs_refines_spec_witness :
  0 <= 4 /\
  exists c,
    generate_prs 5 4 = Ok c /\
    length c = Z.to_nat 4 /\
    forall n : nat, (n < Z.to_nat 4)%nat ->
      c !! n = Some ((x1_spec (n + 31) + x2_spec 5 (n + 31)) mod 2).
Proof. split; [lia | apply (generate_prs_refines_spec 5 4); lia]. Defined.

(** C7. For every seed and lengths [0 <= L' < L]: every element of
    [generate_prs seed L] is 0 or 1; two evaluations on the same
    [(seed, L)] give the same result; and the first [L'] elements of
    [generate_prs seed L] are [generate_prs seed L']. *)
Theorem generate_prs_bits_deterministic_prefix (seed L' L : Z) :
  0 <= L' < L ->
  exists out out',
    generate_prs seed L = Ok out /\
    generate_prs seed L' = Ok out' /\
    Forall (fun b => b = 0 \/ b = 1) out /\
    (forall r1 r2, r1 = generate_prs seed L -> r2 = generate_prs seed L ->
                   r1 = r2) /\
    take (Z.to_nat L') out = out'.
Proof.
  intros HL. eexists. eexists.
  split; [apply generate_prs_nonneg; lia|].
  split; [apply generate_prs_nonneg; lia|].
  split; [|split].
  - apply Forall_forall. intros b Hb.
    apply list_elem_of_In, in_map_iff in Hb. destruct Hb as (n & <- & _).
    apply gold_spec_bit.
  - intros r1 r2 -> ->. reflexivity.
  - change (map ?f ?l) with (f <$> l). rewrite <- fmap_take. f_equal.
    rewrite take_seq. f_equal. lia.
Qed.

Lemma generate_prs_bits_deterministic_prefix_witness :
  0 <= 3 < 8 /\
  exists out out',
    generate_prs 1 8 = Ok out /\
    generate_prs 1 3 = Ok out' /\
    Forall (fun b => b = 0 \/ b = 1) out /\
    (forall r1 r2, r1 = generate_prs 1 8 -> r2 = generate_prs 1 8 -> r1 = r2) /\
    take (Z.to_nat 3) out = out'.
Proof.
  split; [lia | apply (generate_prs_bits_deterministic_prefix 1 3 8); lia].
Defined.

(** C8. [generate_prs] raises when the requested length is negative, and
    that is its only error: it raises exactly for the negative lengths and
    returns normally exactly for the non-negative ones, whatever the
    seed. *)
Theorem generate_prs_raises_iff_negative (seed L : Z) :
  ((exists e, generate_prs seed L = Raise e) <-> L < 0) /\
  ((exists out, generate_prs seed L = Ok out) <-> 0 <= L).
Proof.
  destruct (Z.lt_ge_cases L 0) as [Hneg|Hpos].
  - destruct (generate_prs_negative seed L Hneg) as (e & He).
    split; split; intros H; try lia; eauto.
    destruct H as (out & Hout). congruence.
  - pose proof (generate_prs_nonneg seed L Hpos) as Hok.
    split; split; intros H; try lia; eauto.
    destruct H as (e & He). congruence.
Qed.

(** ** Configuration accessors *)

(** C6. For every valid configuration, [bandwidth_in_subcarriers] is
    [min((N_b + 1) * 12 * 2^max(B_srs, 0), n_ul_rb * 12)]; with
    [bandwidth_config = 2], [srs_bandwidth = 0] and [n_ul_rb = 50] this is
    [min(1 * 12 * 4, 600) = 48]. *)
Theorem bandwidth_in_subcarriers_formula (cfg : SRSConfig.t) :
  SRSConfig.valid cfg ->
  SRSConfig.bandwidth_in_subcarriers cfg
  = Z.min ((SRSConfig.srs_bandwidth cfg + 1) * 12
           * 2 ^ Z.max (SRSConfig.bandwidth_config cfg) 0)
          (SRSConfig.n_ul_rb cfg * 12)
  /\ (SRSConfig.bandwidth_config cfg = 2 ->
      SRSConfig.srs_bandwidth cfg = 0 ->
      SRSConfig.n_ul_rb cfg = 50 ->
      SRSConfig.bandwidth_in_subcarriers cfg = 48
      /\ 48 = Z.min (1 * 12 * 4) 600).
Proof.
  intros _. split; [reflexivity|].
  intros Hb Hs Hn. unfold SRSConfig.bandwidth_in_subcarriers.
  rewrite Hb, Hs, Hn. split; reflexivity.
Qed.

Lemma bandwidth_in_subcarriers_formula_witness :
  SRSConfig.valid tester_config /\
  SRSConfig.bandwidth_in_subcarriers tester_config = 48.
Proof.
  split; [reflexivity|].
  apply (bandwidth_in_subcarriers_formula tester_config); reflexivity.
Defined.

(** ** Hopping *)

Lemma map_result_ok {I A : Type} (f : I -> result A) (g : I -> A)
  (items : list I) :
  Forall (fun x => f x = Ok (g x)) items ->
  map_result f items = Ok (map g items).
Proof.
  induction 1 as [|x items Hx _ IH]; [reflexivity|].
  simpl. rewrite Hx. simpl. rewrite IH. reflexivity.
Qed.

Lemma np_get_in_range (a : list Z) (i : Z) :
  0 <= i < Z.of_nat (length a) -> np.get 0 a i = Ok (nth (Z.to_nat i) a 0).
Proof.
  intros Hi. unfold np.get. rewrite np_index_nonneg by lia. reflexivity.
Qed.

(** What the function returns on a non-negative slot, in closed form. *)
Lemma group_and_sequence_hopping_eval (cfg : SRSConfig.t) (slot : Z) :
  0 <= slot ->
  let f_ss := SRSConfig.cell_id cfg mod 30 in
  let f_gh :=
    if SRSConfig.group_hopping_enabled cfg
    then weighted_bits
           (map (gold_spec (hopping_seed cfg slot))
                (seq 0 (Z.to_nat (8 * (slot + 1))))) (8 * slot) mod 30
    else 0 in
  let group_number := (f_ss + f_gh) mod 30 in
  let seq_shift :=
    if SRSConfig.sequence_hopping_enabled cfg then f_gh mod 30 else 0 in
  group_and_sequence_hopping cfg slot
  = Ok (HoppingState.mk group_number ((group_number + seq_shift) mod 30)
                        f_gh f_ss).
Proof.
  intros Hslot. unfold group_and_sequence_hopping.
  destruct (SRSConfig.group_hopping_enabled cfg); [|reflexivity].
  fold (hopping_seed cfg slot).
  rewrite generate_prs_nonneg by lia. cbn [bind].
  set (c := map (gold_spec (hopping_seed cfg slot))
                (seq 0 (Z.to_nat (8 * (slot + 1))))).
  assert (Hlen : length c = Z.to_nat (8 * (slot + 1))).
  { unfold c. rewrite length_map, length_seq. reflexivity. }
  rewrite (map_result_ok _
    (fun i => Z.shiftl (nth (Z.to_nat (8 * slot + i)) c 0) i)).
  - cbn [bind].
    replace (py_sum (map (fun i => Z.shiftl (nth (Z.to_nat (8 * slot + i)) c 0) i)
                         (py_range 0 8)))
      with (weighted_bits c (8 * slot)); [reflexivity|].
    unfold weighted_bits. f_equal.
    apply map_ext_in. intros i Hi. symmetry.
    apply Z.shiftl_mul_pow2.
    apply list_elem_of_In, elem_of_seqZ in Hi. lia.
  - apply Forall_forall. intros i Hi.
    apply elem_of_seqZ in Hi.
    rewrite np_get_in_range by lia. reflexivity.
Qed.

Example group_and_sequence_hopping_slot_8 :
  group_and_sequence_hopping tester_config_hopping 8
  = Ok (HoppingState.mk 22 13 21 1).
Proof. vm_compute. reflexivity. Qed.

(** C2. For every valid configuration and non-negative slot,
    [group_and_sequence_hopping] returns [f_ss = cell_id mod 30];
    [f_gh = 0] without group hopping, otherwise
    [f_gh = (sum over i in 0..7 of c[8*slot + i] * 2^i) mod 30] with
    [c = generate_prs(((slot // 2 + 1) * (cell_id + 1) * 2^9 + cell_id)
    mod 2^31, 8 * (slot + 1))]; [group_number = (f_ss + f_gh) mod 30];
    [sequence_number = group_number] without sequence hopping, otherwise
    [(group_number + f_gh mod 30) mod 30]. *)
Theorem group_and_sequence_hopping_formula (cfg : SRSConfig.t) (slot : Z) :
  SRSConfig.valid cfg -> 0 <= slot ->
  exists hs,
    group_and_sequence_hopping cfg slot = Ok hs /\
    HoppingState.f_ss hs = SRSConfig.cell_id cfg mod 30 /\
    (SRSConfig.group_hopping_enabled cfg = false -> HoppingState.f_gh hs = 0) /\
    (SRSConfig.group_hopping_enabled cfg = true ->
       exists c,
         generate_prs
           (((slot / 2 + 1) * (SRSConfig.cell_id cfg + 1) * 2 ^ 9
             + SRSConfig.cell_id cfg) mod 2 ^ 31) (8 * (slot + 1)) = Ok c /\
         HoppingState.f_gh hs
         = (nth (Z.to_nat (8 * slot + 0)) c 0 * 2 ^ 0
            + (nth (Z.to_nat (8 * slot + 1)) c 0 * 2 ^ 1
            + (nth (Z.to_nat (8 * slot + 2)) c 0 * 2 ^ 2
            + (nth (Z.to_nat (8 * slot + 3)) c 0 * 2 ^ 3
            + (nth (Z.to_nat (8 * slot + 4)) c 0 * 2 ^ 4
            + (nth (Z.to_nat (8 * slot + 5)) c 0 * 2 ^ 5
            + (nth (Z.to_nat (8 * slot + 6)) c 0 * 2 ^ 6
            + (nth (Z.to_nat (8 * slot + 7)) c 0 * 2 ^ 7
            + 0)))))))) mod 30) /\
    HoppingState.group_number hs
    = (HoppingState.f_ss hs + HoppingState.f_gh hs) mod 30 /\
    (SRSConfig.sequence_hopping_enabled cfg = false ->
       HoppingState.sequence_number hs = HoppingState.group_number hs) /\
    (SRSConfig.sequence_hopping_enabled cfg = true ->
       HoppingState.sequence_number hs
       = (HoppingState.group_number hs + HoppingState.f_gh hs mod 30) mod 30).
Proof.
  intros _ Hslot. eexists.
  split; [apply group_and_sequence_hopping_eval, Hslot|]. cbn.
  split; [reflexivity|]. split; [|split; [|split; [|split]]].
  - intros ->. reflexivity.
  - intros ->. eexists. split.
    + apply generate_prs_nonneg. lia.
    + reflexivity.
  - reflexivity.
  - intros ->. rewrite Z.add_0_r. apply Z.mod_mod. lia.
  - intros ->. reflexivity.
Qed.

Lemma group_and_sequence_hopping_formula_witness :
  SRSConfig.valid tester_config /\ 0 <= 8 /\
  exists hs,
    group_and_sequence_hopping tester_config 8 = Ok hs /\
    HoppingState.f_ss hs = 0 /\
    HoppingState.group_number hs
    = (HoppingState.f_ss hs + HoppingState.f_gh hs) mod 30.
Proof.
  split; [reflexivity|]. split; [lia|].
  destruct (group_and_sequence_hopping_formula tester_config 8)
    as (hs & Hrun & Hss & _ & _ & Hgroup & _); [reflexivity | lia |].
  exists hs. split; [exact Hrun|]. split; [exact Hss | exact Hgroup].
Defined.

(** C9. For every valid configuration without group hopping and every
    slot, [f_gh = 0] and [sequence_number = group_number = cell_id mod 30]
    whatever the sequence-hopping flag: the shift is [f_gh mod 30], so
    switching sequence hopping on or off leaves the returned state
    unchanged. *)
Theorem sequence_hopping_inert_without_group_hopping
  (cfg : SRSConfig.t) (slot : Z) :
  SRSConfig.valid cfg ->
  SRSConfig.group_hopping_enabled cfg = false ->
  exists hs,
    group_and_sequence_hopping cfg slot = Ok hs /\
    HoppingState.f_gh hs = 0 /\
    HoppingState.group_number hs = SRSConfig.cell_id cfg mod 30 /\
    HoppingState.sequence_number hs = SRSConfig.cell_id cfg mod 30 /\
    forall flag,
      group_and_sequence_hopping (with_sequence_hopping cfg flag) slot = Ok hs.
Proof.
  intros _ Hgh.
  assert (Hmod : forall x, ((x mod 30 + 0) mod 30 + 0) mod 30 = x mod 30).
  { intros x. rewrite !Z.add_0_r, !Z.mod_mod by lia. reflexivity. }
  assert (Hmod' : forall x, (x mod 30 + 0) mod 30 = x mod 30).
  { intros x. rewrite !Z.add_0_r, !Z.mod_mod by lia. reflexivity. }
  exists (HoppingState.mk (SRSConfig.cell_id cfg mod 30)
            (SRSConfig.cell_id cfg mod 30) 0 (SRSConfig.cell_id cfg mod 30)).
  split; [|split; [reflexivity | split; [reflexivity | split; [reflexivity|]]]].
  - unfold group_and_sequence_hopping. rewrite Hgh. cbn [bind].
    change (0 mod 30) with 0.
    destruct (SRSConfig.sequence_hopping_enabled cfg);
      rewrite Hmod, Hmod'; reflexivity.
  - intros flag. unfold group_and_sequence_hopping, with_sequence_hopping.
    cbn [SRSConfig.group_hopping_enabled SRSConfig.cell_id
         SRSConfig.sequence_hopping_enabled].
    rewrite Hgh. cbn [bind]. change (0 mod 30) with 0.
    destruct flag; rewrite Hmod, Hmod'; reflexivity.
Qed.

Lemma sequence_hopping_inert_without_group_hopping_witness :
  SRSConfig.valid tester_config_no_group_hopping /\
  SRSConfig.group_hopping_enabled tester_config_no_group_hopping = false /\
  exists hs,
    group_and_sequence_hopping tester_config_no_group_hopping 8 = Ok hs /\
    HoppingState.f_gh hs = 0 /\
    HoppingState.group_number hs = 12 /\
    HoppingState.sequence_number hs = 12.
Proof.
  split; [reflexivity|]. split; [reflexivity|].
  destruct (sequence_hopping_inert_without_group_hopping
              tester_config_no_group_hopping 8)
    as (hs & Hrun & Hgh & Hgroup & Hseq & _); [reflexivity | reflexivity |].
  exists hs. split; [exact Hrun|]. split; [exact Hgh|].
  split; [exact Hgroup | exact Hseq].
Defined.

(** ** The frequency mapper *)

Lemma count_nonzero_insert (g : list complex) (k : nat) (z v : complex) :
  g !! k = Some z -> c_nonzero z = false ->
  np.count_nonzero (<[k := v]> g)
  = (np.count_nonzero g + (if c_nonzero v then 1%nat else 0%nat))%nat.
Proof.
  unfold np.count_nonzero. revert k.
  induction g as [|w g IH]; intros k Hk Hz; [discriminate|].
  destruct k as [|k].
  - simpl in Hk. injection Hk as ->.
    change (<[0%nat := v]> (z :: g)) with (v :: g).
    cbn [List.filter]. rewrite Hz. destruct (c_nonzero v); simpl; lia.
  - change (<[S k := v]> (w :: g)) with (w :: <[k := v]> g).
    cbn [List.filter]. specialize (IH k Hk Hz).
    destruct (c_nonzero w); cbn [length]; lia.
Qed.

Lemma count_nonzero_replicate (n : nat) :
  np.count_nonzero (replicate n czero) = 0%nat.
Proof. induction n as [|n IH]; [reflexivity | exact IH]. Qed.

Lemma count_nonzero_ifftshift (g : list complex) :
  np.count_nonzero (np.fft_ifftshift g) = np.count_nonzero g.
Proof.
  unfold np.fft_ifftshift, np.count_nonzero.
  rewrite List.filter_app, length_app, Nat.add_comm, <- length_app,
    <- List.filter_app, take_drop. reflexivity.
Qed.

Lemma length_ifftshift {A : Type} (g : list A) :
  length (np.fft_ifftshift g) = length g.
Proof.
  unfold np.fft_ifftshift.
  rewrite length_app, Nat.add_comm, <- length_app, take_drop. reflexivity.
Qed.

Lemma landed_nonzero_le (k0 n_fft m : Z) (seq : list complex) :
  (landed_nonzero k0 n_fft m seq <= length seq)%nat.
Proof.
  revert m. induction seq as [|v seq IH]; intros m; simpl; [lia|].
  specialize (IH (m + 1)).
  destruct ((0 <=? k0 + m * 2) && (k0 + m * 2 <? n_fft) && c_nonzero v); lia.
Qed.

Lemma landed_nonzero_all (k0 n_fft m : Z) (seq : list complex) :
  (forall (j : nat) v, seq !! j = Some v ->
     0 <= k0 + (m + Z.of_nat j) * 2 < n_fft /\ c_nonzero v = true) ->
  landed_nonzero k0 n_fft m seq = length seq.
Proof.
  revert m. induction seq as [|v seq IH]; intros m Hall; simpl; [reflexivity|].
  destruct (Hall 0%nat v eq_refl) as [Hin Hv].
  replace (m + Z.of_nat 0) with m in Hin by lia.
  destruct (Z.leb_spec 0 (k0 + m * 2)), (Z.ltb_spec (k0 + m * 2) n_fft);
    try lia.
  rewrite Hv. simpl. f_equal. apply IH.
  intros j w Hj. specialize (Hall (S j) w Hj).
  replace (m + 1 + Z.of_nat j) with (m + Z.of_nat (S j)) by lia. exact Hall.
Qed.

Lemma enumerate_cons (m : Z) (value : complex) (seq : list complex) :
  zip (py_range m (m + Z.of_nat (length (value :: seq)))) (value :: seq)
  = (m, value)
    :: zip (py_range (m + 1) (m + 1 + Z.of_nat (length seq))) seq.
Proof.
  rewrite py_range_cons by (simpl; lia). simpl.
  do 3 f_equal. lia.
Qed.

(** The loop of the mapper, started at sequence index [m]: it never
    raises; each element whose bin is in range ends up in that bin; the
    other bins keep what they held; and when the bins to be written held
    zero, the count of non-zero bins grows by [landed_nonzero]. *)
Lemma fill_grid_from (k0 n_fft : Z) (seq : list complex) :
  forall (m : Z) (g : list complex),
    0 <= m -> Z.of_nat (length g) = n_fft ->
    exists g',
      for_each (zip (py_range m (m + Z.of_nat (length seq))) seq)
        (fun '(m, value) grid_shifted =>
           let k := k0 + m * 2 in
           if (0 <=? k) && (k <? n_fft) then np.set grid_shifted k value
           else Ok grid_shifted) g = Ok g' /\
      length g' = length g /\
      (forall (j : nat) v, seq !! j = Some v ->
         0 <= k0 + (m + Z.of_nat j) * 2 < n_fft ->
         g' !! Z.to_nat (k0 + (m + Z.of_nat j) * 2) = Some v) /\
      (forall k : nat,
         (forall j : nat, (j < length seq)%nat ->
            Z.of_nat k <> k0 + (m + Z.of_nat j) * 2) ->
         g' !! k = g !! k) /\
      ((forall (j : nat) z, (j < length seq)%nat ->
          0 <= k0 + (m + Z.of_nat j) * 2 < n_fft ->
          g !! Z.to_nat (k0 + (m + Z.of_nat j) * 2) = Some z ->
          c_nonzero z = false) ->
       np.count_nonzero g'
       = (np.count_nonzero g + landed_nonzero k0 n_fft m seq)%nat).
Proof.
  induction seq as [|v seq IH]; intros m g Hm Hlen.
  - exists g. simpl. rewrite py_range_nil by lia. simpl.
    repeat split; auto.
    intros j w Hj. discriminate.
  - rewrite enumerate_cons. cbn [for_each].
    set (k := k0 + m * 2).
    assert (Hbin : forall j : nat,
               k0 + (m + 1 + Z.of_nat j) * 2 = k0 + (m + Z.of_nat (S j)) * 2)
      by (intros; lia).
    destruct ((0 <=? k) && (k <? n_fft)) eqn:Hrange.
    + apply andb_true_iff in Hrange as [Hk0%Z.leb_le Hk1%Z.ltb_lt].
      unfold np.set. rewrite np_index_nonneg by lia. cbn [bind].
      destruct (IH (m + 1) (<[Z.to_nat k := v]> g)) as (g' & Hrun & Hl & HA & HB & HC);
        [lia | rewrite length_insert; exact Hlen |].
      exists g'. split; [exact Hrun|].
      rewrite length_insert in Hl. split; [exact Hl|].
      split; [|split].
      * intros [|j] w Hj Hin.
        -- simpl in Hj. injection Hj as ->.
           replace (k0 + (m + Z.of_nat 0) * 2) with k by (unfold k; lia).
           rewrite HB.
           ++ apply list_lookup_insert_eq. lia.
           ++ intros j Hjlt. unfold k. lia.
        -- simpl in Hj. rewrite <- Hbin. apply (HA j w Hj). rewrite Hbin. exact Hin.
      * intros i Hi. rewrite HB.
        -- apply list_lookup_insert_ne.
           specialize (Hi 0%nat ltac:(simpl; lia)). unfold k. lia.
        -- intros j Hj. rewrite Hbin. apply Hi. simpl. lia.
      * intros Hzero. rewrite HC.
        -- destruct (lookup_lt_is_Some_2 g (Z.to_nat k) ltac:(lia)) as (z & Hz).
           assert (Hzz : c_nonzero z = false).
           { apply (Hzero 0%nat z); [simpl; lia | | ];
               replace (k0 + (m + Z.of_nat 0) * 2) with k by (unfold k; lia);
               [lia | exact Hz]. }
           rewrite (count_nonzero_insert g (Z.to_nat k) z v Hz Hzz).
           simpl. fold k.
           destruct (Z.leb_spec 0 k), (Z.ltb_spec k n_fft); try lia.
           simpl. destruct (c_nonzero v); lia.
        -- intros j z Hj Hin Hz. rewrite Hbin in Hin, Hz.
           rewrite list_lookup_insert_ne in Hz by (unfold k; lia).
           apply (Hzero (S j) z); [simpl; lia | exact Hin | exact Hz].
    + cbn [bind].
      destruct (IH (m + 1) g) as (g' & Hrun & Hl & HA & HB & HC); [lia | exact Hlen |].
      exists g'. split; [exact Hrun|]. split; [exact Hl|].
      split; [|split].
      * intros [|j] w Hj Hin.
        -- replace (k0 + (m + Z.of_nat 0) * 2) with k in Hin by (unfold k; lia).
           apply andb_false_iff in Hrange as [H%Z.leb_gt | H%Z.ltb_ge]; lia.
        -- simpl in Hj. rewrite <- Hbin. apply (HA j w Hj). rewrite Hbin. exact Hin.
      * intros i Hi. apply HB.
        intros j Hj. rewrite Hbin. apply Hi. simpl. lia.
      * intros Hzero. rewrite HC.
        -- simpl. fold k. rewrite Hrange. simpl. reflexivity.
        -- intros j z Hj Hin Hz. rewrite Hbin in Hin, Hz.
           apply (Hzero (S j) z); [simpl; lia | exact Hin | exact Hz].
Qed.

(** The mapper on a non-negative transform size: the value of [k0], the
    grid before the rotation, and the count of its non-zero bins. *)
Lemma map_to_frequency_grid_eval (seq : list complex) (cfg : SRSConfig.t)
  (n_fft : Z) :
  0 <= n_fft ->
  let k0 := n_fft / 2 - (Z.of_nat (length seq) / 2) * 2
            + SRSConfig.transmission_comb cfg in
  exists grid_shifted,
    map_to_frequency_grid seq cfg n_fft
    = Ok (np.fft_ifftshift grid_shifted, k0) /\
    length grid_shifted = Z.to_nat n_fft /\
    (forall (m : nat) v, seq !! m = Some v ->
       0 <= k0 + 2 * Z.of_nat m < n_fft ->
       grid_shifted !! Z.to_nat (k0 + 2 * Z.of_nat m) = Some v) /\
    (forall k : nat, Z.of_nat k < n_fft ->
       (forall m : nat, (m < length seq)%nat ->
          Z.of_nat k <> k0 + 2 * Z.of_nat m) ->
       grid_shifted !! k = Some czero) /\
    np.count_nonzero grid_shifted = landed_nonzero k0 n_fft 0 seq.
Proof.
  intros Hn k0. unfold map_to_frequency_grid, np.zeros.
  destruct (Z.ltb_spec n_fft 0); [lia|]. cbn [bind].
  unfold SRSConfig.comb_spacing, fill_grid, enumerate. fold k0.
  destruct (fill_grid_from k0 n_fft seq 0 (replicate (Z.to_nat n_fft) czero))
    as (g & Hrun & Hlen & HA & HB & HC);
    [lia | rewrite length_replicate; lia |].
  rewrite length_replicate in Hlen.
  change (0 + Z.of_nat (length seq)) with (Z.of_nat (length seq)) in Hrun.
  cbv zeta in Hrun |- *. fold k0.
  rewrite Hrun. cbn [bind].
  exists g. split; [reflexivity|]. split; [exact Hlen|].
  split; [|split].
  - intros m v Hm Hin.
    replace (k0 + 2 * Z.of_nat m) with (k0 + (0 + Z.of_nat m) * 2) by lia.
    apply (HA m v Hm). lia.
  - intros k Hk Hfree. rewrite HB.
    + apply lookup_replicate_2. lia.
    + intros j Hj. specialize (Hfree j Hj). lia.
  - rewrite HC, count_nonzero_replicate; [reflexivity|].
    intros j z _ _ Hz. apply lookup_replicate_1 in Hz as [-> _]. reflexivity.
Qed.

Example map_to_frequency_grid_two_samples :
  map_to_frequency_grid [(1%float, 0%float); (0%float, 1%float)]
    tester_config_hopping 8
  = Ok ([czero; (0%float, 1%float); czero; czero;
         czero; czero; czero; (1%float, 0%float)], 3).
Proof. vm_compute. reflexivity. Qed.

(** C4, as amended.  For every complex sequence, every valid configuration
    and every positive [n_fft], [map_to_frequency_grid] returns
    [k0 = n_fft // 2 - (M_sc // 2) * 2 + transmission_comb] and a grid that,
    before the circular rotation putting DC at index 0, holds element [m]
    at bin [k0 + 2 * m] whenever that bin is inside [[0, n_fft)], skips the
    indices outside without raising, and holds exactly zero in every bin
    that is not filled.  The number of non-zero bins is the number of
    elements that are themselves non-zero and land inside: at most [M_sc],
    and exactly [M_sc] when every element is non-zero and every index
    lands inside. *)
Theorem map_to_frequency_grid_layout (seq : list complex)
  (cfg : SRSConfig.t) (n_fft : Z) :
  SRSConfig.valid cfg -> 0 < n_fft ->
  let k0 := n_fft / 2 - (Z.of_nat (length seq) / 2) * 2
            + SRSConfig.transmission_comb cfg in
  exists grid_shifted,
    map_to_frequency_grid seq cfg n_fft
    = Ok (np.fft_ifftshift grid_shifted, k0) /\
    length grid_shifted = Z.to_nat n_fft /\
    (forall (m : nat) v, seq !! m = Some v ->
       0 <= k0 + 2 * Z.of_nat m < n_fft ->
       grid_shifted !! Z.to_nat (k0 + 2 * Z.of_nat m) = Some v) /\
    (forall k : nat, Z.of_nat k < n_fft ->
       (forall m : nat, (m < length seq)%nat ->
          Z.of_nat k <> k0 + 2 * Z.of_nat m) ->
       grid_shifted !! k = Some czero) /\
    np.count_nonzero (np.fft_ifftshift grid_shifted)
    = np.count_nonzero grid_shifted /\
    np.count_nonzero grid_shifted = landed_nonzero k0 n_fft 0 seq /\
    (np.count_nonzero grid_shifted <= length seq)%nat /\
    ((forall (m : nat) v, seq !! m = Some v ->
        0 <= k0 + 2 * Z.of_nat m < n_fft /\ c_nonzero v = true) ->
     np.count_nonzero grid_shifted = length seq).
Proof.
  intros _ Hn k0.
  destruct (map_to_frequency_grid_eval seq cfg n_fft ltac:(lia))
    as (g & Hrun & Hlen & Hfilled & Hzero & Hcount).
  fold k0 in Hrun, Hfilled, Hzero, Hcount.
  exists g. split; [exact Hrun|]. split; [exact Hlen|].
  split; [exact Hfilled|]. split; [exact Hzero|].
  split; [apply count_nonzero_ifftshift|]. split; [exact Hcount|].
  split.
  - rewrite Hcount. apply landed_nonzero_le.
  - intros Hall. rewrite Hcount. apply landed_nonzero_all.
    intros j v Hj. destruct (Hall j v Hj) as [Hin Hv].
    split; [lia | exact Hv].
Qed.

Lemma map_to_frequency_grid_layout_witness :
  SRSConfig.valid tester_config /\ 0 < 4 /\
  exists grid_shifted,
    map_to_frequency_grid zero_sample tester_config 4
    = Ok (np.fft_ifftshift grid_shifted, 2) /\
    np.count_nonzero grid_shifted = 0%nat.
Proof.
  split; [reflexivity|]. split; [lia|].
  destruct (map_to_frequency_grid_layout zero_sample tester_config 4)
    as (g & Hrun & _ & _ & _ & _ & Hcount & _); [reflexivity | lia |].
  exists g. split; [exact Hrun | exact Hcount].
Defined.

(** C4 without the amendment asks for exactly [M_sc] non-zero bins unless
    some index lands outside [[0, n_fft)].  The one-sample sequence [0j]
    with [n_fft = 4] has its only index, [k0 = 2], inside the grid, and the
    grid has no non-zero bin at all. *)
Lemma map_to_frequency_grid_zero_sample :
  SRSConfig.valid tester_config /\ 0 < 4 /\
  exists grid k0,
    map_to_frequency_grid zero_sample tester_config 4 = Ok (grid, k0) /\
    ~ (np.count_nonzero grid = length zero_sample \/
       exists m : nat, (m < length zero_sample)%nat /\
                       ~ 0 <= k0 + 2 * Z.of_nat m < 4).
Proof.
  split; [reflexivity|]. split; [lia|].
  exists [czero; czero; czero; czero], 2.
  split; [reflexivity|].
  intros [Hcount | (m & Hm & Hout)].
  - discriminate.
  - simpl in Hm. lia.
Qed.

(** ** The orchestrator *)

Lemma string_app_assoc (a b c : string) : (a +:+ b) +:+ c = a +:+ b +:+ c.
Proof.
  induction a as [|x a IH]; [reflexivity|].
  change (String x ((a +:+ b) +:+ c) = String x (a +:+ b +:+ c)).
  f_equal. exact IH.
Qed.

Lemma inactive_message_includes (subframe_index : Z) (config : SRSConfig.t) :
  includes (py_str subframe_index) (inactive_message subframe_index config) /\
  includes (py_str (SRSConfig.subframe_config config))
           (inactive_message subframe_index config).
Proof.
  unfold includes, inactive_message. split.
  - eexists "Subframe ", _. reflexivity.
  - exists ("Subframe " +:+ py_str subframe_index
            +:+ " is not active for this UE (T_srs="), ").".
    rewrite !string_app_assoc. reflexivity.
Qed.

Lemma is_active_subframe_false (cfg : SRSConfig.t) (subframe : Z) :
  SRSConfig.is_active_subframe cfg subframe = false <->
  SRSConfig.subframe_config cfg = 0
  \/ subframe mod SRSConfig.subframe_config cfg <> 0.
Proof.
  unfold SRSConfig.is_active_subframe.
  destruct (Z.eqb_spec (SRSConfig.subframe_config cfg) 0) as [H0|H0].
  - split; auto.
  - destruct (Z.eqb_spec (subframe mod SRSConfig.subframe_config cfg) 0);
      split; intros H; try discriminate; auto; destruct H; contradiction.
Qed.

Lemma length_generate_zadoff_chu `{Numerics} (u N_zc : Z) :
  length (generate_zadoff_chu u N_zc) = Z.to_nat N_zc.
Proof.
  unfold generate_zadoff_chu. rewrite length_map, py_range_length.
  f_equal. lia.
Qed.

Lemma length_apply_cyclic_shift `{Numerics} (seq : list complex) (alpha : float) :
  length (apply_cyclic_shift seq alpha) = length seq.
Proof.
  unfold apply_cyclic_shift. apply length_zip_with_l_eq.
  rewrite py_range_length. lia.
Qed.

(** On an active, non-negative subframe and a positive transform size the
    orchestrator returns; every intermediate value is the one its steps
    name. *)
Lemma generate_srs_eval `{Numerics} (cfg : SRSConfig.t) (subframe_index n_fft : Z) :
  0 <= subframe_index -> 0 < n_fft ->
  SRSConfig.is_active_subframe cfg subframe_index = true ->
  exists hopping freq_grid k0,
    group_and_sequence_hopping cfg (subframe_index * 2) = Ok hopping /\
    map_to_frequency_grid
      (apply_cyclic_shift
         (np.slice_to
            (generate_zadoff_chu (HoppingState.sequence_number hopping)
                                 (SRSConfig.zc_length cfg))
            (SRSConfig.bandwidth_in_subcarriers cfg))
         (SRSConfig.alpha cfg)) cfg n_fft = Ok (freq_grid, k0) /\
    generate_srs cfg subframe_index n_fft
    = Ok (ifft_kernel freq_grid,
          MappingInfo.mk subframe_index (subframe_index * 2)
            (HoppingState.sequence_number hopping) (SRSConfig.alpha cfg)
            (SRSConfig.bandwidth_in_subcarriers cfg)
            (SRSConfig.transmission_comb cfg) n_fft k0 hopping).
Proof.
  intros Hsf Hn Hactive.
  assert (exists hopping,
            group_and_sequence_hopping cfg (subframe_index * 2) = Ok hopping)
    as (hopping & Hhop)
    by (eexists; apply group_and_sequence_hopping_eval; lia).
  exists hopping.
  destruct (map_to_frequency_grid_eval
    (apply_cyclic_shift
       (np.slice_to
          (generate_zadoff_chu
             (HoppingState.sequence_number hopping) (SRSConfig.zc_length cfg))
          (SRSConfig.bandwidth_in_subcarriers cfg))
       (SRSConfig.alpha cfg)) cfg n_fft ltac:(lia))
    as (g & Hmap & Hlen & _).
  eexists. eexists. split; [exact Hhop|]. split; [exact Hmap|].
  unfold generate_srs. rewrite Hactive. cbn [negb].
  rewrite Hhop. cbn [bind]. rewrite Hmap. cbn [bind].
  assert (Hne : length (np.fft_ifftshift g) = Z.to_nat n_fft)
    by (rewrite length_ifftshift; exact Hlen).
  unfold np_fft_ifft.
  destruct (np.fft_ifftshift g) as [|z grid]; [simpl in Hne; lia|].
  reflexivity.
Qed.

(** Scenario 1 of the specification: with a periodicity of 2, subframe 4
    is active and subframe 3 is not. *)
Example is_active_subframe_scenario :
  SRSConfig.is_active_subframe tester_config 4 = true /\
  SRSConfig.is_active_subframe tester_config 3 = false.
Proof. split; reflexivity. Qed.

Example inactive_message_subframe_3 :
  inactive_message 3 tester_config
  = "Subframe 3 is not active for this UE (T_srs=2).".
Proof. reflexivity. Qed.

(** C1. For every valid configuration, every (non-negative) subframe index
    and every positive transform size (the default 2048 among them),
    [generate_srs] fails with a [ValueError] exactly when the periodicity
    [subframe_config] is 0 or [subframe_index mod subframe_config] is not
    0, and returns a signal and its [MappingInfo] otherwise; the message of
    the error includes the requested subframe index and the configured
    periodicity. *)
Theorem generate_srs_fails_iff_inactive `{Numerics} (cfg : SRSConfig.t)
  (subframe_index n_fft : Z) :
  SRSConfig.valid cfg -> 0 <= subframe_index -> 0 < n_fft ->
  (SRSConfig.subframe_config cfg = 0
   \/ subframe_index mod SRSConfig.subframe_config cfg <> 0 ->
   exists msg,
     generate_srs cfg subframe_index n_fft = Raise (ValueError msg) /\
     includes (py_str subframe_index) msg /\
     includes (py_str (SRSConfig.subframe_config cfg)) msg) /\
  (~ (SRSConfig.subframe_config cfg = 0
      \/ subframe_index mod SRSConfig.subframe_config cfg <> 0) ->
   exists signal info,
     generate_srs cfg subframe_index n_fft = Ok (signal, info)) /\
  ((exists e, generate_srs cfg subframe_index n_fft = Raise e) <->
   SRSConfig.subframe_config cfg = 0
   \/ subframe_index mod SRSConfig.subframe_config cfg <> 0).
Proof.
  intros _ Hsf Hn.
  assert (Hfail : SRSConfig.subframe_config cfg = 0
                  \/ subframe_index mod SRSConfig.subframe_config cfg <> 0 ->
                  generate_srs cfg subframe_index n_fft
                  = Raise (ValueError (inactive_message subframe_index cfg))).
  { intros Hin. apply is_active_subframe_false in Hin.
    unfold generate_srs. rewrite Hin. reflexivity. }
  assert (Hok : ~ (SRSConfig.subframe_config cfg = 0
                   \/ subframe_index mod SRSConfig.subframe_config cfg <> 0) ->
                exists signal info,
                  generate_srs cfg subframe_index n_fft = Ok (signal, info)).
  { intros Hact.
    assert (Hactive : SRSConfig.is_active_subframe cfg subframe_index = true).
    { destruct (SRSConfig.is_active_subframe cfg subframe_index) eqn:E;
        [reflexivity|]. apply is_active_subframe_false in E. contradiction. }
    destruct (generate_srs_eval cfg subframe_index n_fft Hsf Hn Hactive)
      as (hopping & grid & k0 & _ & _ & Hrun).
    eauto. }
  split; [|split].
  - intros Hin. eexists. split; [apply Hfail, Hin|].
    apply inactive_message_includes.
  - exact Hok.
  - split.
    + intros (e & He).
      destruct (SRSConfig.is_active_subframe cfg subframe_index) eqn:E.
      * destruct (generate_srs_eval cfg subframe_index n_fft Hsf Hn E)
          as (hopping & grid & k0 & _ & _ & Hrun). congruence.
      * apply is_active_subframe_false, E.
    + intros Hin. eexists. apply Hfail, Hin.
Qed.

Lemma generate_srs_fails_iff_inactive_witness :
  SRSConfig.valid tester_config /\ 0 <= 3 /\ 0 < default_n_fft /\
  exists msg,
    @generate_srs unit_numerics tester_config 3 default_n_fft
    = Raise (ValueError msg) /\
    includes (py_str 3) msg /\
    includes (py_str (SRSConfig.subframe_config tester_config)) msg.
Proof.
  split; [reflexivity|]. split; [lia|]. split; [reflexivity|].
  destruct (@generate_srs_fails_iff_inactive unit_numerics tester_config 3
              default_n_fft) as (Hfail & _ & _);
    [reflexivity | lia | reflexivity |].
  apply Hfail. right. vm_compute. discriminate.
Defined.

(** C10. [generate_srs] does not ask the occupied-subcarrier count to fit
    in the Zadoff-Chu length.  Whenever [bandwidth_in_subcarriers] exceeds
    [zc_length], the call still returns; the slice [base_seq[:m_sc]] is the
    whole base sequence, of [zc_length] samples (a length: none when the
    override is negative); at most that many bins of the frequency grid
    are non-zero; and the returned [MappingInfo.m_sc] is the larger
    [bandwidth_in_subcarriers]. *)
Theorem generate_srs_reports_untruncated_m_sc `{Numerics} (cfg : SRSConfig.t)
  (subframe_index n_fft : Z) :
  SRSConfig.valid cfg -> 0 <= subframe_index -> 0 < n_fft ->
  SRSConfig.is_active_subframe cfg subframe_index = true ->
  SRSConfig.zc_length cfg < SRSConfig.bandwidth_in_subcarriers cfg ->
  exists hopping freq_grid signal info,
    group_and_sequence_hopping cfg (subframe_index * 2) = Ok hopping /\
    let base_seq :=
      generate_zadoff_chu (HoppingState.sequence_number hopping)
                          (SRSConfig.zc_length cfg) in
    let truncated_seq :=
      np.slice_to base_seq (SRSConfig.bandwidth_in_subcarriers cfg) in
    truncated_seq = base_seq /\
    length truncated_seq = Z.to_nat (SRSConfig.zc_length cfg) /\
    (0 <= SRSConfig.zc_length cfg ->
     Z.of_nat (length truncated_seq) = SRSConfig.zc_length cfg) /\
    map_to_frequency_grid
      (apply_cyclic_shift truncated_seq (SRSConfig.alpha cfg)) cfg n_fft
    = Ok (freq_grid, MappingInfo.k0 info) /\
    (np.count_nonzero freq_grid <= Z.to_nat (SRSConfig.zc_length cfg))%nat /\
    generate_srs cfg subframe_index n_fft = Ok (signal, info) /\
    signal = ifft_kernel freq_grid /\
    MappingInfo.m_sc info = SRSConfig.bandwidth_in_subcarriers cfg /\
    SRSConfig.zc_length cfg < MappingInfo.m_sc info.
Proof.
  intros _ Hsf Hn Hactive Hexceeds.
  destruct (generate_srs_eval cfg subframe_index n_fft Hsf Hn Hactive)
    as (hopping & grid & k0 & Hhop & Hmap & Hrun).
  exists hopping, grid, (ifft_kernel grid),
    (MappingInfo.mk subframe_index (subframe_index * 2)
       (HoppingState.sequence_number hopping) (SRSConfig.alpha cfg)
       (SRSConfig.bandwidth_in_subcarriers cfg)
       (SRSConfig.transmission_comb cfg) n_fft k0 hopping).
  split; [exact Hhop|]. cbv zeta. cbn [MappingInfo.k0 MappingInfo.m_sc].
  assert (Htrunc :
    np.slice_to (generate_zadoff_chu (HoppingState.sequence_number hopping)
                                     (SRSConfig.zc_length cfg))
                (SRSConfig.bandwidth_in_subcarriers cfg)
    = generate_zadoff_chu (HoppingState.sequence_number hopping)
                          (SRSConfig.zc_length cfg)).
  { unfold np.slice_to.
    destruct (Z.leb_spec 0 (SRSConfig.bandwidth_in_subcarriers cfg)).
    - apply take_ge. rewrite length_generate_zadoff_chu. lia.
    - apply take_ge. rewrite length_generate_zadoff_chu. lia. }
  rewrite Htrunc in Hmap |- *.
  split; [reflexivity|].
  split; [apply length_generate_zadoff_chu|].
  split; [rewrite length_generate_zadoff_chu; lia|].
  split; [exact Hmap|].
  split; [|split; [exact Hrun | split; [reflexivity | split;
    [reflexivity | exact Hexceeds]]]].
  destruct (map_to_frequency_grid_eval
              (apply_cyclic_shift
                 (generate_zadoff_chu (HoppingState.sequence_number hopping)
                                      (SRSConfig.zc_length cfg))
                 (SRSConfig.alpha cfg)) cfg n_fft ltac:(lia))
    as (g & Hmap' & _ & _ & _ & Hcount).
  rewrite Hmap in Hmap'. injection Hmap' as -> _.
  rewrite count_nonzero_ifftshift, Hcount.
  etransitivity; [apply landed_nonzero_le|].
  rewrite length_apply_cyclic_shift, length_generate_zadoff_chu. lia.
Qed.

Lemma generate_srs_reports_untruncated_m_sc_witness :
  SRSConfig.valid wide_config /\ 0 <= 4 /\ 0 < default_n_fft /\
  SRSConfig.is_active_subframe wide_config 4 = true /\
  SRSConfig.zc_length wide_config < SRSConfig.bandwidth_in_subcarriers wide_config /\
  SRSConfig.zc_length wide_config = 839 /\
  exists signal info,
    @generate_srs unit_numerics wide_config 4 default_n_fft
    = Ok (signal, info) /\
    MappingInfo.m_sc info = 1200.
Proof.
  split; [reflexivity|]. split; [lia|]. split; [reflexivity|].
  split; [reflexivity|]. split; [vm_compute; reflexivity|].
  split; [reflexivity|].
  destruct (@generate_srs_reports_untruncated_m_sc unit_numerics wide_config 4
              default_n_fft)
    as (hopping & grid & signal & info & _ & _ & _ & _ & _ & _ & Hrun & _ & Hm & _);
    [reflexivity | lia | reflexivity | reflexivity | vm_compute; reflexivity |].
  exists signal, info. split; [exact Hrun | exact Hm].
Defined.

(** ** The correlation metric *)

(** The structure of [normalized_cross_correlation] that does not depend
    on floating-point arithmetic: it raises exactly when the lengths
    differ, and returns [0.0] when one of the norms compares equal to 0. *)
Lemma normalized_cross_correlation_raises_iff `{Numerics} (a b : list complex) :
  (exists msg, normalized_cross_correlation a b = Raise (ValueError msg))
  <-> length a <> length b.
Proof.
  unfold normalized_cross_correlation.
  destruct (Nat.eqb_spec (length a) (length b)) as [Heq|Hne]; cbn [negb].
  - split; [|contradiction].
    intros (msg & Hmsg).
    destruct (PrimFloat.eqb (linalg_norm a) 0 || PrimFloat.eqb (linalg_norm b) 0);
      discriminate.
  - split; [auto | eauto].
Qed.

Lemma normalized_cross_correlation_zero_norm `{Numerics} (a b : list complex) :
  length a = length b ->
  PrimFloat.eqb (linalg_norm a) 0 = true \/ PrimFloat.eqb (linalg_norm b) 0 = true ->
  normalized_cross_correlation a b = Ok 0%float.
Proof.
  intros Hlen Hzero. unfold normalized_cross_correlation.
  destruct (Nat.eqb_spec (length a) (length b)); [|contradiction]. cbn [negb].
  destruct Hzero as [-> | ->]; [reflexivity|].
  rewrite orb_true_r. reflexivity.
Qed.

(** A subframe index below zero is outside the orchestrator's domain: on
    an active one with group hopping, the Gold sequence is asked for a
    negative length. *)
Example generate_srs_negative_subframe :
  exists msg,
    @generate_srs unit_numerics tester_config (-2) default_n_fft
    = Raise (IndexError msg).
Proof. eexists. vm_compute. reflexivity. Qed.

(** * Further properties of the package *)

(** ** The constructor and the accessors *)

Lemma post_init_ok (cfg : SRSConfig.t) :
  SRSConfig.post_init cfg = Ok tt <->
  0 <= SRSConfig.cell_id cfg <= 503 /\
  (SRSConfig.transmission_comb cfg = 0 \/ SRSConfig.transmission_comb cfg = 1) /\
  0 <= SRSConfig.bandwidth_config cfg /\
  0 <= SRSConfig.subframe_config cfg /\
  0 <= SRSConfig.b_hop cfg /\
  0 <= SRSConfig.srs_bandwidth cfg /\
  0 < SRSConfig.n_ul_rb cfg.
Proof.
  unfold SRSConfig.post_init.
  destruct (Z.leb_spec 0 (SRSConfig.cell_id cfg)),
    (Z.leb_spec (SRSConfig.cell_id cfg) 503),
    (Z.eqb_spec (SRSConfig.transmission_comb cfg) 0),
    (Z.eqb_spec (SRSConfig.transmission_comb cfg) 1),
    (Z.ltb_spec (SRSConfig.bandwidth_config cfg) 0),
    (Z.ltb_spec (SRSConfig.subframe_config cfg) 0),
    (Z.ltb_spec (SRSConfig.b_hop cfg) 0),
    (Z.ltb_spec (SRSConfig.srs_bandwidth cfg) 0),
    (Z.leb_spec (SRSConfig.n_ul_rb cfg) 0);
    cbn [negb andb orb]; split; intros Hv; try discriminate;
    try reflexivity; try lia.
Qed.

Lemma post_init_value_error (cfg : SRSConfig.t) (e : PyError) :
  SRSConfig.post_init cfg = Raise e -> exists msg, e = ValueError msg.
Proof.
  unfold SRSConfig.post_init.
  repeat match goal with
         | |- (if ?c then _ else _) = _ -> _ => destruct c
         end; intros Hr; try discriminate; injection Hr as <-; eauto.
Qed.

(** X1. The constructor accepts a set of fields exactly when the cell
    identity is in 0..503, the comb is 0 or 1, [bandwidth_config],
    [subframe_config], [b_hop] and [srs_bandwidth] are non-negative and
    [n_ul_rb] is positive, and then returns the record unchanged; every
    rejection is a [ValueError]; [cyclic_shift] and [n_zc] are never
    looked at. *)
Theorem srs_config_init_accepts (cell_id bandwidth_config subframe_config
  b_hop : Z) (gh sh : bool) (comb : Z) (cyclic_shift : float)
  (srs_bandwidth n_ul_rb : Z) (n_zc : option Z) :
  let self := SRSConfig.mk cell_id bandwidth_config subframe_config b_hop
                gh sh comb cyclic_shift srs_bandwidth n_ul_rb n_zc in
  let in_range :=
    0 <= cell_id <= 503 /\ (comb = 0 \/ comb = 1) /\ 0 <= bandwidth_config /\
    0 <= subframe_config /\ 0 <= b_hop /\ 0 <= srs_bandwidth /\ 0 < n_ul_rb in
  (in_range <->
   SRSConfig.init cell_id bandwidth_config subframe_config b_hop gh sh comb
                  cyclic_shift srs_bandwidth n_ul_rb n_zc = Ok self) /\
  (~ in_range <->
   exists msg,
     SRSConfig.init cell_id bandwidth_config subframe_config b_hop gh sh comb
                    cyclic_shift srs_bandwidth n_ul_rb n_zc
     = Raise (ValueError msg)).
Proof.
  intros self in_range.
  pose proof (post_init_ok self) as Hok. cbn in Hok. fold in_range in Hok.
  unfold SRSConfig.init. fold self.
  destruct (SRSConfig.post_init self) as [[]|e] eqn:E; cbn [bind].
  - split; split; intros H.
    + reflexivity.
    + apply Hok. reflexivity.
    + exfalso. apply H, Hok. reflexivity.
    + destruct H as (msg & Hmsg). discriminate.
  - destruct (post_init_value_error self e E) as (msg & ->).
    split; split; intros H.
    + apply Hok in H. discriminate.
    + discriminate.
    + eauto.
    + intros Hin. apply Hok in Hin. discriminate.
Qed.

Lemma bandwidth_in_subcarriers_valid (cfg : SRSConfig.t) :
  SRSConfig.valid cfg ->
  12 <= SRSConfig.bandwidth_in_subcarriers cfg <= 12 * SRSConfig.n_ul_rb cfg /\
  SRSConfig.bandwidth_in_subcarriers cfg mod 12 = 0.
Proof.
  intros Hv. apply post_init_ok in Hv.
  destruct Hv as (_ & _ & Hb & _ & _ & Hs & Hn).
  unfold SRSConfig.bandwidth_in_subcarriers.
  rewrite Z.max_l by lia.
  assert (Hpow : 1 <= 2 ^ SRSConfig.bandwidth_config cfg)
    by (pose proof (Z.pow_pos_nonneg 2 (SRSConfig.bandwidth_config cfg)); lia).
  set (scaling := 2 ^ SRSConfig.bandwidth_config cfg) in *.
  assert (Hraw : (SRSConfig.srs_bandwidth cfg + 1) * 12 * scaling
                 = (SRSConfig.srs_bandwidth cfg + 1) * scaling * 12) by lia.
  rewrite Hraw.
  assert (1 <= (SRSConfig.srs_bandwidth cfg + 1) * scaling) by nia.
  split.
  - apply Z.min_case_strong; intros; lia.
  - apply Z.min_case_strong; intros; apply Z.mod_mul; lia.
Qed.

(** X2. For every valid configuration the occupied-subcarrier count is a
    multiple of 12, at least 12 and at most [12 * n_ul_rb]. *)
Theorem bandwidth_in_subcarriers_bounds (cfg : SRSConfig.t) :
  SRSConfig.valid cfg ->
  12 <= SRSConfig.bandwidth_in_subcarriers cfg <= 12 * SRSConfig.n_ul_rb cfg /\
  SRSConfig.bandwidth_in_subcarriers cfg mod 12 = 0.
Proof. exact (bandwidth_in_subcarriers_valid cfg). Qed.

Lemma bandwidth_in_subcarriers_bounds_witness :
  SRSConfig.valid wide_config /\
  12 <= SRSConfig.bandwidth_in_subcarriers wide_config
     <= 12 * SRSConfig.n_ul_rb wide_config /\
  SRSConfig.bandwidth_in_subcarriers wide_config mod 12 = 0.
Proof.
  split; [reflexivity|].
  apply (bandwidth_in_subcarriers_bounds wide_config). reflexivity.
Defined.

(** X3. Activity is periodic in the subframe index with period
    [subframe_config]: moving by any whole number of periods, forwards or
    backwards, does not change the answer; and subframe 0 is active
    exactly when the periodicity is not 0. *)
Theorem is_active_subframe_periodic (cfg : SRSConfig.t) (subframe k : Z) :
  SRSConfig.is_active_subframe cfg (subframe + k * SRSConfig.subframe_config cfg)
  = SRSConfig.is_active_subframe cfg subframe /\
  (SRSConfig.is_active_subframe cfg 0 = true <->
   SRSConfig.subframe_config cfg <> 0).
Proof.
  unfold SRSConfig.is_active_subframe.
  destruct (Z.eqb_spec (SRSConfig.subframe_config cfg) 0) as [H0|H0].
  - split; [reflexivity|]. split; [discriminate | contradiction].
  - rewrite Z.mod_add by exact H0. split; [reflexivity|].
    rewrite Z.mod_0_l by exact H0. split; auto.
Qed.

(** ** More on the Gold sequence *)

Lemma x2_spec_low_bits (c_init : Z) (n : nat) :
  x2_spec (c_init mod 2 ^ 31) n = x2_spec c_init n.
Proof.
  induction n as [n IH] using lt_wf_ind.
  destruct (lt_dec n 31) as [Hlt|Hge].
  - rewrite !x2_spec_seed by exact Hlt.
    rewrite Z.mod_pow2_bits_low by lia. reflexivity.
  - rewrite (x2_spec_step _ n), (x2_spec_step c_init n) by lia.
    rewrite !IH by lia. reflexivity.
Qed.

Lemma x2_spec_bit (c_init : Z) (n : nat) :
  x2_spec c_init n = 0 \/ x2_spec c_init n = 1.
Proof.
  destruct (lt_dec n 31) as [Hlt|Hge].
  - rewrite x2_spec_seed by exact Hlt.
    destruct (Z.testbit c_init (Z.of_nat n)); simpl; auto.
  - rewrite x2_spec_step by lia.
    match goal with |- ?a mod 2 = 0 \/ _ => pose proof (Z.mod_pos_bound a 2) end.
    lia.
Qed.

Lemma mod2_sum4 (a1 a2 a3 a4 b1 b2 b3 b4 : Z) :
  ((a1 + b1) mod 2 + (a2 + b2) mod 2 + (a3 + b3) mod 2 + (a4 + b4) mod 2) mod 2
  = ((a1 + a2 + a3 + a4) mod 2 + (b1 + b2 + b3 + b4) mod 2) mod 2.
Proof.
  rewrite <- (Z.add_mod (a1 + a2 + a3 + a4) (b1 + b2 + b3 + b4)) by lia.
  rewrite <- !Z.add_assoc.
  rewrite (Z.add_mod_idemp_l (a1 + b1)) by lia.
  rewrite (Z.add_comm (a1 + b1)), <- !Z.add_assoc.
  rewrite (Z.add_mod_idemp_l (a2 + b2)) by lia.
  rewrite (Z.add_comm (a2 + b2)), <- !Z.add_assoc.
  rewrite (Z.add_mod_idemp_l (a3 + b3)) by lia.
  rewrite (Z.add_comm (a3 + b3)), <- !Z.add_assoc.
  rewrite (Z.add_mod_idemp_l (a4 + b4)) by lia.
  f_equal. lia.
Qed.

Lemma mod2_sum3 (x a b : Z) :
  (x + (a + b) mod 2) mod 2
  = ((x + a) mod 2 + (x + b) mod 2 + (x + 0) mod 2) mod 2.
Proof.
  rewrite Z.add_mod_idemp_r by lia.
  rewrite <- !Z.add_assoc.
  rewrite (Z.add_mod_idemp_l (x + a)) by lia.
  rewrite (Z.add_comm (x + a)), <- !Z.add_assoc.
  rewrite (Z.add_mod_idemp_l (x + b)) by lia.
  rewrite (Z.add_comm (x + b)), <- !Z.add_assoc.
  rewrite (Z.add_mod_idemp_l (x + 0)) by lia.
  match goal with
  | |- _ = ?r mod 2 => replace r with (x + (a + b) + x * 2) by lia
  end.
  rewrite Z.mod_add by lia. reflexivity.
Qed.

Lemma x2_spec_lxor (c c' : Z) (n : nat) :
  x2_spec (Z.lxor c c') n = (x2_spec c n + x2_spec c' n) mod 2.
Proof.
  induction n as [n IH] using lt_wf_ind.
  destruct (lt_dec n 31) as [Hlt|Hge].
  - rewrite !x2_spec_seed by exact Hlt. rewrite Z.lxor_spec.
    destruct (Z.testbit c (Z.of_nat n)), (Z.testbit c' (Z.of_nat n));
      reflexivity.
  - rewrite (x2_spec_step _ n), (x2_spec_step c n), (x2_spec_step c' n) by lia.
    rewrite !IH by lia. apply mod2_sum4.
Qed.

Lemma x2_spec_zero (n : nat) : x2_spec 0 n = 0.
Proof.
  induction n as [n IH] using lt_wf_ind.
  destruct (lt_dec n 31) as [Hlt|Hge].
  - rewrite x2_spec_seed by exact Hlt. rewrite Z.bits_0. reflexivity.
  - rewrite x2_spec_step by lia. rewrite !IH by lia. reflexivity.
Qed.

(** The exception raised on a negative length does not depend on the
    seed. *)
Lemma generate_prs_negative_seedless (c_init L : Z) :
  L < 0 -> generate_prs c_init L = generate_prs 0 L.
Proof.
  intros HL. destruct (Z.ltb_spec (L + 31) 0) as [Hsmall|Hbig].
  - unfold generate_prs, np.zeros.
    destruct (Z.ltb_spec (L + 31) 0); [|lia]. cbn [bind]. reflexivity.
  - assert (exists k : nat, (k <= 30)%nat /\ L = Z.of_nat k - 31) as (k & Hk & ->).
    { exists (Z.to_nat (L + 31)). lia. }
    do 31 (destruct k as [|k]; [vm_compute; reflexivity|]). lia.
Qed.

(** X4. Only the 31 low bits of the seed matter: reducing the seed modulo
    [2^31] changes neither the sequence returned nor, on a negative
    length, the exception raised. *)
Theorem generate_prs_seed_mod_2_31 (c_init L : Z) :
  generate_prs (c_init mod 2 ^ 31) L = generate_prs c_init L.
Proof.
  destruct (Z.lt_ge_cases L 0) as [Hneg|Hpos].
  - rewrite (generate_prs_negative_seedless c_init L Hneg).
    apply generate_prs_negative_seedless, Hneg.
  - rewrite !generate_prs_nonneg by exact Hpos. f_equal.
    apply map_ext. intros n. unfold gold_spec.
    rewrite x2_spec_low_bits. reflexivity.
Qed.

(** X5. The generator is affine over GF(2) in the seed: element by
    element, the sequence of [c xor c'] is the sum modulo 2 of the
    sequences of [c], of [c'] and of the seed 0. *)
Theorem generate_prs_xor_seeds (c c' L : Z) :
  0 <= L ->
  exists out_c out_c' out_0 out_xor,
    generate_prs c L = Ok out_c /\
    generate_prs c' L = Ok out_c' /\
    generate_prs 0 L = Ok out_0 /\
    generate_prs (Z.lxor c c') L = Ok out_xor /\
    forall n : nat, (n < Z.to_nat L)%nat ->
      out_xor !! n
      = Some ((nth n out_c 0 + nth n out_c' 0 + nth n out_0 0) mod 2).
Proof.
  intros HL. do 4 eexists.
  split; [apply generate_prs_nonneg, HL|].
  split; [apply generate_prs_nonneg, HL|].
  split; [apply generate_prs_nonneg, HL|].
  split; [apply generate_prs_nonneg, HL|].
  intros n Hn.
  assert (Hnth : forall s, nth n (map (gold_spec s) (seq 0 (Z.to_nat L))) 0
                           = gold_spec s n).
  { intros s. rewrite nth_lookup. change (map ?f ?l) with (f <$> l).
    rewrite list_lookup_fmap, lookup_seq_lt by lia. reflexivity. }
  rewrite !Hnth. change (map ?f ?l) with (f <$> l).
  rewrite list_lookup_fmap, lookup_seq_lt by lia. cbn [fmap option_fmap option_map].
  f_equal. unfold gold_spec. rewrite x2_spec_lxor, x2_spec_zero.
  apply mod2_sum3.
Qed.

Lemma generate_prs_xor_seeds_witness :
  0 <= 8 /\
  exists out_c out_c' out_0 out_xor,
    generate_prs 5 8 = Ok out_c /\
    generate_prs 9 8 = Ok out_c' /\
    generate_prs 0 8 = Ok out_0 /\
    generate_prs (Z.lxor 5 9) 8 = Ok out_xor /\
    forall n : nat, (n < Z.to_nat 8)%nat ->
      out_xor !! n
      = Some ((nth n out_c 0 + nth n out_c' 0 + nth n out_0 0) mod 2).
Proof. split; [lia | apply (generate_prs_xor_seeds 5 9 8); lia]. Defined.

(** ** More on hopping *)

(** X6. Whenever [group_and_sequence_hopping] returns, its four fields
    [group_number], [sequence_number], [f_gh] and [f_ss] all lie in
    [[0, 30)], whatever the configuration and the slot. *)
Theorem hopping_state_in_range (cfg : SRSConfig.t) (slot : Z)
  (hs : HoppingState.t) :
  group_and_sequence_hopping cfg slot = Ok hs ->
  0 <= HoppingState.group_number hs < 30 /\
  0 <= HoppingState.sequence_number hs < 30 /\
  0 <= HoppingState.f_gh hs < 30 /\
  0 <= HoppingState.f_ss hs < 30.
Proof.
  unfold group_and_sequence_hopping.
  set (r := if SRSConfig.group_hopping_enabled cfg then _ else _).
  assert (Hr : forall v, r = Ok v -> 0 <= v < 30).
  { subst r. destruct (SRSConfig.group_hopping_enabled cfg).
    - intros v.
      destruct (generate_prs _ _) as [c|e]; cbn [bind]; [|discriminate].
      destruct (map_result _ _) as [terms|e]; cbn [bind]; [|discriminate].
      intros Hv. injection Hv as <-. apply Z.mod_pos_bound. lia.
    - intros v Hv. injection Hv as <-. lia. }
  destruct r as [f_gh|e]; cbn [bind]; [|discriminate].
  specialize (Hr f_gh eq_refl).
  intros Hhs. injection Hhs as <-. cbn.
  repeat split; try apply Z.mod_pos_bound; lia.
Qed.

Lemma hopping_state_in_range_witness :
  exists hs,
    group_and_sequence_hopping tester_config_hopping 8 = Ok hs /\
    0 <= HoppingState.group_number hs < 30 /\
    0 <= HoppingState.sequence_number hs < 30 /\
    0 <= HoppingState.f_gh hs < 30 /\
    0 <= HoppingState.f_ss hs < 30.
Proof.
  exists (HoppingState.mk 22 13 21 1).
  assert (Hrun : group_and_sequence_hopping tester_config_hopping 8
                 = Ok (HoppingState.mk 22 13 21 1))
    by (vm_compute; reflexivity).
  split; [exact Hrun|].
  exact (hopping_state_in_range tester_config_hopping 8 _ Hrun).
Defined.

Lemma group_and_sequence_hopping_negative_slot (cfg : SRSConfig.t) (slot : Z) :
  SRSConfig.group_hopping_enabled cfg = true -> slot < 0 ->
  exists e, group_and_sequence_hopping cfg slot = Raise e.
Proof.
  intros Hgh Hslot. unfold group_and_sequence_hopping. rewrite Hgh.
  destruct (Z.eq_dec slot (-1)) as [->|Hne].
  - change (8 * (-1 + 1)) with (Z.of_nat 0).
    rewrite generate_prs_gold. cbn. eauto.
  - destruct (generate_prs_negative
                (((slot / 2 + 1) * (SRSConfig.cell_id cfg + 1) * 2 ^ 9
                  + SRSConfig.cell_id cfg) mod 2 ^ 31) (8 * (slot + 1)))
      as (e & He); [lia|].
    rewrite He. cbn [bind]. eauto.
Qed.

(** X7. [group_and_sequence_hopping] raises exactly when group hopping is
    enabled and the slot index is negative (the Gold sequence is then
    asked for a negative length, or indexed before its start); in every
    other case it returns. *)
Theorem group_and_sequence_hopping_raises_iff (cfg : SRSConfig.t) (slot : Z) :
  ((exists e, group_and_sequence_hopping cfg slot = Raise e) <->
   SRSConfig.group_hopping_enabled cfg = true /\ slot < 0) /\
  ((exists hs, group_and_sequence_hopping cfg slot = Ok hs) <->
   SRSConfig.group_hopping_enabled cfg = false \/ 0 <= slot).
Proof.
  destruct (SRSConfig.group_hopping_enabled cfg) eqn:Hgh.
  - destruct (Z.lt_ge_cases slot 0) as [Hneg|Hpos].
    + destruct (group_and_sequence_hopping_negative_slot cfg slot Hgh Hneg)
        as (e & He).
      split; split; intros H; eauto.
      * destruct H as (hs & Hhs). congruence.
      * destruct H; [discriminate | lia].
    + pose proof (group_and_sequence_hopping_eval cfg slot Hpos) as Hok.
      cbv zeta in Hok.
      split; split; intros H; eauto.
      * destruct H as (e & He). congruence.
      * lia.
  - assert (Hok : exists hs, group_and_sequence_hopping cfg slot = Ok hs).
    { unfold group_and_sequence_hopping. rewrite Hgh. cbn [bind]. eauto. }
    destruct Hok as (hs & Hhs).
    split; split; intros H; eauto.
    + destruct H as (e & He). congruence.
    + destruct H; discriminate.
Qed.

(** ** More on the frequency mapper *)

(** Index [i] of the rotated grid holds what index [(i + n // 2) mod n]
    held before the rotation. *)
Lemma ifftshift_lookup {A : Type} (g : list A) (i : nat) :
  (i < length g)%nat ->
  np.fft_ifftshift g !! i = g !! ((i + length g / 2) mod length g)%nat.
Proof.
  intros Hi. unfold np.fft_ifftshift.
  set (n := length g) in *. set (s := (n / 2)%nat).
  assert (Hs : (s <= n)%nat) by (subst s; apply Nat.Div0.div_le_upper_bound; lia).
  destruct (decide (i < n - s)%nat) as [Hl|Hr].
  - rewrite lookup_app_l by (rewrite length_drop; fold n; lia).
    rewrite lookup_drop. rewrite Nat.mod_small by lia.
    f_equal. lia.
  - rewrite lookup_app_r by (rewrite length_drop; fold n; lia).
    rewrite length_drop. fold n.
    rewrite lookup_take_lt by lia.
    replace (i + s)%nat with ((i - (n - s)) + 1 * n)%nat by lia.
    rewrite Nat.Div0.mod_add, Nat.mod_small by lia. reflexivity.
Qed.

(** Where a bin of the shifted domain ends up after the rotation. *)
Lemma ifftshift_lookup_bin {A : Type} (g : list A) (n_fft k : Z) :
  Z.of_nat (length g) = n_fft -> 0 <= k < n_fft ->
  np.fft_ifftshift g !! Z.to_nat ((k - n_fft / 2) mod n_fft)
  = g !! Z.to_nat k.
Proof.
  intros Hlen Hk.
  assert (Hhalf : 0 <= n_fft / 2 <= n_fft)
    by (split; [apply Z.div_pos; lia | apply Z.div_le_upper_bound; lia]).
  assert (Hhalf_nat : Z.of_nat (length g / 2) = n_fft / 2)
    by (rewrite Nat2Z.inj_div, Hlen; reflexivity).
  assert (Hmod : (k - n_fft / 2) mod n_fft
                 = if n_fft / 2 <=? k then k - n_fft / 2
                   else k - n_fft / 2 + n_fft).
  { destruct (Z.leb_spec (n_fft / 2) k).
    - apply Z.mod_small. lia.
    - rewrite <- (Z.mod_add (k - n_fft / 2) 1 n_fft) by lia.
      rewrite Z.mul_1_l. apply Z.mod_small. lia. }
  rewrite ifftshift_lookup
    by (rewrite Hmod; destruct (Z.leb_spec (n_fft / 2) k); lia).
  f_equal. rewrite Hmod.
  destruct (Z.leb_spec (n_fft / 2) k).
  - replace (Z.to_nat (k - n_fft / 2) + length g / 2)%nat with (Z.to_nat k) by lia.
    apply Nat.mod_small. lia.
  - replace (Z.to_nat (k - n_fft / 2 + n_fft) + length g / 2)%nat
      with (Z.to_nat k + 1 * length g)%nat by lia.
    rewrite Nat.Div0.mod_add. apply Nat.mod_small. lia.
Qed.

(** X8. [map_to_frequency_grid] raises exactly when [n_fft] is negative,
    and then a [ValueError]; for every other [n_fft], 0 included, it
    returns a grid of exactly [n_fft] bins, whatever the sequence. *)
Theorem map_to_frequency_grid_raises_iff (seq : list complex)
  (cfg : SRSConfig.t) (n_fft : Z) :
  (n_fft < 0 <->
   exists msg, map_to_frequency_grid seq cfg n_fft = Raise (ValueError msg)) /\
  (0 <= n_fft <->
   exists freq_grid k0,
     map_to_frequency_grid seq cfg n_fft = Ok (freq_grid, k0) /\
     length freq_grid = Z.to_nat n_fft).
Proof.
  destruct (Z.lt_ge_cases n_fft 0) as [Hneg|Hpos].
  - assert (Hr : map_to_frequency_grid seq cfg n_fft
                 = Raise (ValueError "negative dimensions are not allowed")).
    { unfold map_to_frequency_grid, np.zeros.
      destruct (Z.ltb_spec n_fft 0); [reflexivity | lia]. }
    split; split; intros H; eauto; try lia.
    destruct H as (f & k & Hf & _). congruence.
  - destruct (map_to_frequency_grid_eval seq cfg n_fft Hpos)
      as (g & Hrun & Hlen & _).
    split; split; intros H; try lia.
    + destruct H as (msg & Hmsg). congruence.
    + do 2 eexists. split; [exact Hrun|].
      rewrite length_ifftshift. exact Hlen.
Qed.

(** X9. In the grid that is returned (DC at index 0), sequence element [m]
    sits at index [(k0 + 2 * m - n_fft // 2) mod n_fft] whenever its bin
    [k0 + 2 * m] is inside [[0, n_fft)]. *)
Theorem map_to_frequency_grid_returned_layout (seq : list complex)
  (cfg : SRSConfig.t) (n_fft : Z) :
  0 < n_fft ->
  exists freq_grid k0,
    map_to_frequency_grid seq cfg n_fft = Ok (freq_grid, k0) /\
    forall (m : nat) v, seq !! m = Some v ->
      0 <= k0 + 2 * Z.of_nat m < n_fft ->
      freq_grid !! Z.to_nat ((k0 + 2 * Z.of_nat m - n_fft / 2) mod n_fft)
      = Some v.
Proof.
  intros Hn.
  destruct (map_to_frequency_grid_eval seq cfg n_fft ltac:(lia))
    as (g & Hrun & Hlen & Hfilled & _).
  do 2 eexists. split; [exact Hrun|].
  intros m v Hm Hin.
  rewrite (ifftshift_lookup_bin g n_fft) by lia.
  apply (Hfilled m v Hm Hin).
Qed.

Lemma map_to_frequency_grid_returned_layout_witness :
  0 < 8 /\
  exists freq_grid k0,
    map_to_frequency_grid [(1%float, 0%float); (0%float, 1%float)]
      tester_config_hopping 8 = Ok (freq_grid, k0) /\
    forall (m : nat) v,
      [(1%float, 0%float); (0%float, 1%float)] !! m = Some v ->
      0 <= k0 + 2 * Z.of_nat m < 8 ->
      freq_grid !! Z.to_nat ((k0 + 2 * Z.of_nat m - 8 / 2) mod 8) = Some v.
Proof.
  split; [lia|].
  apply (map_to_frequency_grid_returned_layout
           [(1%float, 0%float); (0%float, 1%float)] tester_config_hopping 8).
  lia.
Defined.

Lemma landed_nonzero_inside (k0 n_fft m : Z) (seq : list complex) :
  (forall j : nat, (j < length seq)%nat ->
     0 <= k0 + (m + Z.of_nat j) * 2 < n_fft) ->
  landed_nonzero k0 n_fft m seq = np.count_nonzero seq.
Proof.
  revert m. induction seq as [|v seq IH]; intros m Hall; [reflexivity|].
  pose proof (Hall 0%nat ltac:(simpl; lia)) as Hin.
  replace (m + Z.of_nat 0) with m in Hin by lia.
  cbn [landed_nonzero]. unfold np.count_nonzero. cbn [List.filter].
  destruct (Z.leb_spec 0 (k0 + m * 2)), (Z.ltb_spec (k0 + m * 2) n_fft);
    try lia.
  rewrite IH.
  - unfold np.count_nonzero. destruct (c_nonzero v); reflexivity.
  - intros j Hj. specialize (Hall (S j) ltac:(simpl; lia)).
    replace (m + 1 + Z.of_nat j) with (m + Z.of_nat (S j)) by lia. exact Hall.
Qed.

(** Twice the sequence length below [n_fft] keeps every bin inside. *)
Lemma comb_bins_inside (n_fft len comb m : Z) :
  (comb = 0 \/ comb = 1) -> 2 * len < n_fft -> 0 <= m < len ->
  0 <= n_fft / 2 - (len / 2) * 2 + comb + 2 * m < n_fft.
Proof. intros Hc Hlen Hm. Z.div_mod_to_equations. lia. Qed.

(** X10. When the transform size exceeds twice the sequence length, no
    element is dropped: for a valid configuration every element [m] lands
    in its bin [k0 + 2 * m], and the returned grid has exactly as many
    non-zero bins as the sequence has non-zero samples. *)
Theorem map_to_frequency_grid_keeps_all (seq : list complex)
  (cfg : SRSConfig.t) (n_fft : Z) :
  SRSConfig.valid cfg -> 2 * Z.of_nat (length seq) < n_fft ->
  exists grid_shifted k0,
    map_to_frequency_grid seq cfg n_fft
    = Ok (np.fft_ifftshift grid_shifted, k0) /\
    (forall (m : nat) v, seq !! m = Some v ->
       0 <= k0 + 2 * Z.of_nat m < n_fft /\
       grid_shifted !! Z.to_nat (k0 + 2 * Z.of_nat m) = Some v) /\
    np.count_nonzero (np.fft_ifftshift grid_shifted) = np.count_nonzero seq.
Proof.
  intros Hv Hlen. apply post_init_ok in Hv. destruct Hv as (_ & Hcomb & _).
  destruct (map_to_frequency_grid_eval seq cfg n_fft ltac:(lia))
    as (g & Hrun & _ & Hfilled & _ & Hcount).
  do 2 eexists. split; [exact Hrun|]. split.
  - intros m v Hm.
    assert (Hin : 0 <= n_fft / 2 - Z.of_nat (length seq) / 2 * 2
                       + SRSConfig.transmission_comb cfg + 2 * Z.of_nat m
                  < n_fft).
    { apply comb_bins_inside; [exact Hcomb | exact Hlen |].
      apply lookup_lt_Some in Hm. lia. }
    split; [exact Hin | exact (Hfilled m v Hm Hin)].
  - rewrite count_nonzero_ifftshift, Hcount.
    apply landed_nonzero_inside. intros j Hj.
    pose proof (comb_bins_inside n_fft (Z.of_nat (length seq))
                  (SRSConfig.transmission_comb cfg) (Z.of_nat j)
                  Hcomb Hlen ltac:(lia)).
    lia.
Qed.

Lemma map_to_frequency_grid_keeps_all_witness :
  SRSConfig.valid tester_config_hopping /\
  2 * Z.of_nat (length [(1%float, 0%float); (0%float, 1%float)]) < 8 /\
  exists grid_shifted k0,
    map_to_frequency_grid [(1%float, 0%float); (0%float, 1%float)]
      tester_config_hopping 8 = Ok (np.fft_ifftshift grid_shifted, k0) /\
    np.count_nonzero (np.fft_ifftshift grid_shifted) = 2%nat.
Proof.
  split; [reflexivity|]. split; [simpl; lia|].
  destruct (map_to_frequency_grid_keeps_all
              [(1%float, 0%float); (0%float, 1%float)] tester_config_hopping 8)
    as (g & k0 & Hrun & _ & Hcount); [reflexivity | simpl; lia |].
  exists g, k0. split; [exact Hrun | exact Hcount].
Defined.

(** The bound of X10 is sharp: with [n_fft] equal to twice the length, the
    last of three samples on comb 1 falls on bin 6 of a 6-bin grid and is
    dropped. *)
Example map_to_frequency_grid_drops_at_twice_the_length :
  map_to_frequency_grid
    [(1%float, 0%float); (1%float, 0%float); (1%float, 0%float)]
    tester_config_hopping 6
  = Ok ([czero; (1%float, 0%float); czero; czero; czero; (1%float, 0%float)], 2).
Proof. vm_compute. reflexivity. Qed.

(** X11. The two combs never meet: for two configurations with
    [transmission_comb] 0 and 1 and the same transform size, every index
    of the returned grids is zero in at least one of them, whatever the
    two sequences and their lengths. *)
Theorem combs_are_disjoint (seq0 seq1 : list complex)
  (cfg0 cfg1 : SRSConfig.t) (n_fft : Z) :
  SRSConfig.transmission_comb cfg0 = 0 ->
  SRSConfig.transmission_comb cfg1 = 1 ->
  0 <= n_fft ->
  exists freq0 k0 freq1 k1,
    map_to_frequency_grid seq0 cfg0 n_fft = Ok (freq0, k0) /\
    map_to_frequency_grid seq1 cfg1 n_fft = Ok (freq1, k1) /\
    forall i : nat, Z.of_nat i < n_fft ->
      freq0 !! i = Some czero \/ freq1 !! i = Some czero.
Proof.
  intros Hc0 Hc1 Hn.
  destruct (map_to_frequency_grid_eval seq0 cfg0 n_fft Hn)
    as (g0 & Hrun0 & Hlen0 & _ & Hzero0 & _).
  destruct (map_to_frequency_grid_eval seq1 cfg1 n_fft Hn)
    as (g1 & Hrun1 & Hlen1 & _ & Hzero1 & _).
  rewrite Hc0 in Hzero0. rewrite Hc1 in Hzero1.
  do 4 eexists. split; [exact Hrun0|]. split; [exact Hrun1|].
  intros i Hi.
  rewrite !ifftshift_lookup by lia.
  rewrite Hlen0, Hlen1.
  set (k := ((i + Z.to_nat n_fft / 2) mod Z.to_nat n_fft)%nat).
  assert (Hk : Z.of_nat k < n_fft).
  { subst k. pose proof (Nat.mod_upper_bound (i + Z.to_nat n_fft / 2)
                           (Z.to_nat n_fft)). lia. }
  destruct (Z.eq_dec ((Z.of_nat k - n_fft / 2) mod 2) 0) as [Heven|Hodd].
  - right. apply Hzero1; [exact Hk|].
    intros m _. Z.div_mod_to_equations. lia.
  - left. apply Hzero0; [exact Hk|].
    intros m _. Z.div_mod_to_equations. lia.
Qed.

Lemma combs_are_disjoint_witness :
  SRSConfig.transmission_comb tester_config = 0 /\
  SRSConfig.transmission_comb tester_config_hopping = 1 /\
  0 <= 8 /\
  exists freq0 k0 freq1 k1,
    map_to_frequency_grid [cone; (0%float, 1%float)] tester_config 8
    = Ok (freq0, k0) /\
    map_to_frequency_grid ones_signal tester_config_hopping 8
    = Ok (freq1, k1) /\
    np.count_nonzero freq0 = 2%nat /\
    np.count_nonzero freq1 = 3%nat /\
    forall i : nat, Z.of_nat i < 8 ->
      freq0 !! i = Some czero \/ freq1 !! i = Some czero.
Proof.
  split; [reflexivity|]. split; [reflexivity|]. split; [lia|].
  destruct (combs_are_disjoint [cone; (0%float, 1%float)] ones_signal
              tester_config tester_config_hopping 8)
    as (freq0 & k0 & freq1 & k1 & Hrun0 & Hrun1 & Hdisjoint);
    [reflexivity | reflexivity | lia |].
  exists freq0, k0, freq1, k1.
  split; [exact Hrun0|]. split; [exact Hrun1|].
  split; [|split; [|exact Hdisjoint]].
  - assert (Heval : map_to_frequency_grid [cone; (0%float, 1%float)]
                      tester_config 8
                    = Ok ([(0%float, 1%float); czero; czero; czero;
                           czero; czero; cone; czero], 2))
      by (vm_compute; reflexivity).
    rewrite Heval in Hrun0. injection Hrun0 as <- _. reflexivity.
  - assert (Heval : map_to_frequency_grid ones_signal tester_config_hopping 8
                    = Ok ([czero; cone; czero; cone;
                           czero; czero; czero; cone], 3))
      by (vm_compute; reflexivity).
    rewrite Heval in Hrun1. injection Hrun1 as <- _. reflexivity.
Defined.

(** ** The base sequence and its cyclic shift *)

Lemma generate_zadoff_chu_lookup `{Numerics} (u N_zc : Z) (n : nat) :
  Z.of_nat n < N_zc ->
  generate_zadoff_chu u N_zc !! n = Some (zc_phasor u (Z.of_nat n) N_zc).
Proof.
  intros Hn. unfold generate_zadoff_chu, py_range.
  change (map ?f ?l) with (f <$> l).
  rewrite list_lookup_fmap, lookup_seqZ_lt by lia. reflexivity.
Qed.

Lemma apply_cyclic_shift_lookup `{Numerics} (seq : list complex)
  (alpha : float) (n : nat) (v : complex) :
  seq !! n = Some v ->
  apply_cyclic_shift seq alpha !! n
  = Some (cmul v (shift_phasor alpha (Z.of_nat n))).
Proof.
  intros Hv. unfold apply_cyclic_shift, py_range.
  rewrite lookup_zip_with, Hv. cbn [mbind option_bind].
  apply lookup_lt_Some in Hv.
  rewrite lookup_seqZ_lt by lia. reflexivity.
Qed.

(** ** More on the orchestrator *)

(** What a returned call went through. *)
Lemma generate_srs_inv `{Numerics} (cfg : SRSConfig.t)
  (subframe_index n_fft : Z) (signal : list complex) (info : MappingInfo.t) :
  generate_srs cfg subframe_index n_fft = Ok (signal, info) ->
  exists hopping freq_grid k0,
    SRSConfig.is_active_subframe cfg subframe_index = true /\
    group_and_sequence_hopping cfg (subframe_index * 2) = Ok hopping /\
    map_to_frequency_grid
      (apply_cyclic_shift
         (np.slice_to
            (generate_zadoff_chu (HoppingState.sequence_number hopping)
                                 (SRSConfig.zc_length cfg))
            (SRSConfig.bandwidth_in_subcarriers cfg))
         (SRSConfig.alpha cfg)) cfg n_fft = Ok (freq_grid, k0) /\
    freq_grid <> [] /\
    signal = ifft_kernel freq_grid /\
    info = MappingInfo.mk subframe_index (subframe_index * 2)
             (HoppingState.sequence_number hopping) (SRSConfig.alpha cfg)
             (SRSConfig.bandwidth_in_subcarriers cfg)
             (SRSConfig.transmission_comb cfg) n_fft k0 hopping.
Proof.
  unfold generate_srs.
  destruct (SRSConfig.is_active_subframe cfg subframe_index);
    cbn [negb]; [|discriminate].
  destruct (group_and_sequence_hopping cfg (subframe_index * 2))
    as [hopping|e]; cbn [bind]; [|discriminate].
  destruct (map_to_frequency_grid _ cfg n_fft) as [[freq k0]|e] eqn:Hmap;
    cbn [bind]; [|discriminate].
  unfold np_fft_ifft. destruct freq as [|z freq]; cbn [bind]; [discriminate|].
  intros Hr. injection Hr as <- <-.
  exists hopping, (z :: freq), k0.
  repeat split; auto; discriminate.
Qed.

Lemma generate_srs_eval_hopping `{Numerics} (cfg : SRSConfig.t)
  (subframe_index n_fft : Z) (hopping : HoppingState.t) :
  SRSConfig.is_active_subframe cfg subframe_index = true ->
  group_and_sequence_hopping cfg (subframe_index * 2) = Ok hopping ->
  0 < n_fft ->
  exists signal info, generate_srs cfg subframe_index n_fft = Ok (signal, info).
Proof.
  intros Hactive Hhop Hn.
  destruct (map_to_frequency_grid_eval
    (apply_cyclic_shift
       (np.slice_to
          (generate_zadoff_chu
             (HoppingState.sequence_number hopping) (SRSConfig.zc_length cfg))
          (SRSConfig.bandwidth_in_subcarriers cfg))
       (SRSConfig.alpha cfg)) cfg n_fft ltac:(lia))
    as (g & Hmap & Hlen & _).
  unfold generate_srs. rewrite Hactive. cbn [negb].
  rewrite Hhop. cbn [bind]. rewrite Hmap. cbn [bind].
  assert (Hne : length (np.fft_ifftshift g) = Z.to_nat n_fft)
    by (rewrite length_ifftshift; exact Hlen).
  unfold np_fft_ifft.
  destruct (np.fft_ifftshift g) as [|z grid]; [simpl in Hne; lia|].
  cbn [bind]. eauto.
Qed.

(** X13. For a positive transform size, [generate_srs] returns exactly
    when the subframe is active and, if group hopping is enabled, the
    subframe index is not negative.  (On an active negative subframe with
    group hopping the exception comes from the Gold sequence, not from the
    activity check.) *)
Theorem generate_srs_returns_iff `{Numerics} (cfg : SRSConfig.t)
  (subframe_index n_fft : Z) :
  0 < n_fft ->
  ((exists signal info,
      generate_srs cfg subframe_index n_fft = Ok (signal, info)) <->
   SRSConfig.is_active_subframe cfg subframe_index = true /\
   (SRSConfig.group_hopping_enabled cfg = false \/ 0 <= subframe_index)).
Proof.
  intros Hn. split.
  - intros (signal & info & Hrun).
    destruct (generate_srs_inv _ _ _ _ _ Hrun)
      as (hopping & freq & k0 & Hactive & Hhop & _).
    split; [exact Hactive|].
    destruct (SRSConfig.group_hopping_enabled cfg) eqn:Hgh; [|auto].
    right. destruct (Z.lt_ge_cases subframe_index 0) as [Hneg|Hpos]; [|lia].
    destruct (group_and_sequence_hopping_negative_slot cfg
                (subframe_index * 2) Hgh ltac:(lia)) as (e & He).
    congruence.
  - intros (Hactive & Hcase).
    assert (exists hopping,
              group_and_sequence_hopping cfg (subframe_index * 2) = Ok hopping)
      as (hopping & Hhop).
    { destruct Hcase as [Hgh|Hpos].
      - unfold group_and_sequence_hopping. rewrite Hgh. cbn [bind]. eauto.
      - eexists. apply group_and_sequence_hopping_eval. lia. }
    exact (generate_srs_eval_hopping cfg subframe_index n_fft hopping
             Hactive Hhop Hn).
Qed.

Lemma generate_srs_returns_iff_witness :
  0 < default_n_fft /\
  ((exists signal info,
      @generate_srs unit_numerics tester_config_no_group_hopping (-2)
        default_n_fft = Ok (signal, info)) <->
   SRSConfig.is_active_subframe tester_config_no_group_hopping (-2) = true /\
   (SRSConfig.group_hopping_enabled tester_config_no_group_hopping = false
    \/ 0 <= -2)).
Proof.
  split; [reflexivity|].
  apply (@generate_srs_returns_iff unit_numerics
           tester_config_no_group_hopping (-2) default_n_fft).
  reflexivity.
Defined.

(** X14. With a transform size of 0 or less [generate_srs] never returns:
    a negative size is refused when the grid is allocated, and the empty
    grid of size 0 is refused by the inverse transform. *)
Theorem generate_srs_needs_positive_n_fft `{Numerics} (cfg : SRSConfig.t)
  (subframe_index n_fft : Z) :
  n_fft <= 0 ->
  exists e, generate_srs cfg subframe_index n_fft = Raise e.
Proof.
  intros Hn.
  destruct (generate_srs cfg subframe_index n_fft) as [[signal info]|e] eqn:Hrun;
    [|eauto].
  destruct (generate_srs_inv _ _ _ _ _ Hrun)
    as (hopping & freq & k0 & _ & _ & Hmap & Hne & _).
  exfalso.
  destruct (Z.lt_ge_cases n_fft 0) as [Hneg|Hzero].
  - unfold map_to_frequency_grid, np.zeros in Hmap.
    destruct (Z.ltb_spec n_fft 0); [discriminate | lia].
  - destruct (map_to_frequency_grid_eval
      (apply_cyclic_shift
         (np.slice_to
            (generate_zadoff_chu
               (HoppingState.sequence_number hopping) (SRSConfig.zc_length cfg))
            (SRSConfig.bandwidth_in_subcarriers cfg))
         (SRSConfig.alpha cfg)) cfg n_fft Hzero)
      as (g & Hmap' & Hlen & _).
    rewrite Hmap in Hmap'. injection Hmap' as -> _.
    apply Hne. apply length_zero_iff_nil.
    rewrite length_ifftshift, Hlen. lia.
Qed.

Lemma generate_srs_needs_positive_n_fft_witness :
  0 <= 0 /\
  exists e, @generate_srs unit_numerics tester_config 4 0 = Raise e.
Proof.
  split; [lia|].
  apply (@generate_srs_needs_positive_n_fft unit_numerics tester_config 4 0).
  lia.
Defined.

Lemma length_slice_to_nonneg {A : Type} (a : list A) (k : Z) :
  0 <= k -> length (np.slice_to a k) = Nat.min (Z.to_nat k) (length a).
Proof.
  intros Hk. unfold np.slice_to.
  destruct (Z.leb_spec 0 k); [|lia]. apply length_take.
Qed.

(** Length of the sequence that reaches the mapper. *)
Lemma length_srs_sequence `{Numerics} (cfg : SRSConfig.t) (u : Z) :
  SRSConfig.valid cfg ->
  Z.of_nat (length
    (apply_cyclic_shift
       (np.slice_to (generate_zadoff_chu u (SRSConfig.zc_length cfg))
                    (SRSConfig.bandwidth_in_subcarriers cfg))
       (SRSConfig.alpha cfg)))
  = Z.min (Z.max (SRSConfig.zc_length cfg) 0)
          (SRSConfig.bandwidth_in_subcarriers cfg).
Proof.
  intros Hv.
  pose proof (bandwidth_in_subcarriers_valid cfg Hv) as [Hb _].
  rewrite length_apply_cyclic_shift, length_slice_to_nonneg by lia.
  rewrite length_generate_zadoff_chu. lia.
Qed.

(** X15. The [MappingInfo] of a returned call, for a valid configuration:
    it repeats the subframe index, the transform size, the comb and the
    shift; [slot_index] is twice the subframe index; [hopping] is the
    hopping state of that slot and [root_index] its sequence number, in
    [[0, 30)]; [m_sc] is [bandwidth_in_subcarriers]; and [k0] is computed
    from the number of samples actually mapped,
    [min(max(zc_length, 0), m_sc)], not from [m_sc]. *)
Theorem generate_srs_mapping_info `{Numerics} (cfg : SRSConfig.t)
  (subframe_index n_fft : Z) (signal : list complex) (info : MappingInfo.t) :
  SRSConfig.valid cfg ->
  generate_srs cfg subframe_index n_fft = Ok (signal, info) ->
  MappingInfo.subframe_index info = subframe_index /\
  MappingInfo.slot_index info = 2 * subframe_index /\
  group_and_sequence_hopping cfg (2 * subframe_index)
  = Ok (MappingInfo.hopping info) /\
  MappingInfo.root_index info
  = HoppingState.sequence_number (MappingInfo.hopping info) /\
  0 <= MappingInfo.root_index info < 30 /\
  MappingInfo.alpha info = SRSConfig.cyclic_shift cfg /\
  MappingInfo.m_sc info = SRSConfig.bandwidth_in_subcarriers cfg /\
  MappingInfo.comb info = SRSConfig.transmission_comb cfg /\
  MappingInfo.n_fft info = n_fft /\
  MappingInfo.k0 info
  = n_fft / 2
    - (Z.min (Z.max (SRSConfig.zc_length cfg) 0)
             (SRSConfig.bandwidth_in_subcarriers cfg) / 2) * 2
    + SRSConfig.transmission_comb cfg.
Proof.
  intros Hv Hrun.
  destruct (generate_srs_inv _ _ _ _ _ Hrun)
    as (hopping & freq & k0 & _ & Hhop & Hmap & _ & _ & ->).
  cbn.
  replace (2 * subframe_index) with (subframe_index * 2) by lia.
  assert (Hroot : 0 <= HoppingState.sequence_number hopping < 30).
  { revert Hhop. unfold group_and_sequence_hopping.
    destruct (if SRSConfig.group_hopping_enabled cfg then _ else _)
      as [f_gh|e]; cbn [bind]; [|discriminate].
    intros Hh. injection Hh as <-. cbn. apply Z.mod_pos_bound. lia. }
  repeat split; try reflexivity; try exact Hhop; try lia.
  assert (Hn : 0 <= n_fft).
  { destruct (Z.lt_ge_cases n_fft 0) as [Hneg|]; [|assumption].
    unfold map_to_frequency_grid, np.zeros in Hmap.
    destruct (Z.ltb_spec n_fft 0); [discriminate | lia]. }
  destruct (map_to_frequency_grid_eval
    (apply_cyclic_shift
       (np.slice_to
          (generate_zadoff_chu
             (HoppingState.sequence_number hopping) (SRSConfig.zc_length cfg))
          (SRSConfig.bandwidth_in_subcarriers cfg))
       (SRSConfig.alpha cfg)) cfg n_fft Hn)
    as (g & Hmap' & _).
  rewrite Hmap in Hmap'. injection Hmap' as _ ->.
  rewrite (length_srs_sequence cfg _ Hv). reflexivity.
Qed.

Lemma generate_srs_mapping_info_witness :
  SRSConfig.valid wide_config /\
  exists signal info,
    @generate_srs unit_numerics wide_config 4 default_n_fft
    = Ok (signal, info) /\
    MappingInfo.m_sc info = 1200 /\
    MappingInfo.k0 info = 2048 / 2 - (Z.min (Z.max 839 0) 1200 / 2) * 2 + 0.
Proof.
  split; [reflexivity|].
  destruct (@generate_srs_eval_hopping unit_numerics wide_config 4
              default_n_fft (HoppingState.mk 0 0 0 0))
    as (signal & info & Hrun); [reflexivity | reflexivity | reflexivity |].
  exists signal, info. split; [exact Hrun|].
  destruct (@generate_srs_mapping_info unit_numerics wide_config 4
              default_n_fft signal info)
    as (_ & _ & _ & _ & _ & _ & Hm & _ & _ & Hk); [reflexivity | exact Hrun |].
  split; [exact Hm | exact Hk].
Defined.

(** X16. The frequency-domain content of a returned signal.  For a valid
    configuration, when [n_fft] exceeds twice the number of samples mapped
    ([min(max(zc_length, 0), m_sc)]; this always holds for the default
    Zadoff-Chu length 839 and the default [n_fft] 2048), the signal is the
    inverse transform of a grid of [n_fft] bins in which every sample [m]
    is present: index [(k0 + 2 * m - n_fft // 2) mod n_fft] holds the
    Zadoff-Chu phasor of root [root_index] at [m] times the shift phasor
    of [cyclic_shift] at [m]. *)
Theorem generate_srs_frequency_content `{Numerics} (cfg : SRSConfig.t)
  (subframe_index n_fft : Z) (signal : list complex) (info : MappingInfo.t) :
  SRSConfig.valid cfg ->
  generate_srs cfg subframe_index n_fft = Ok (signal, info) ->
  2 * Z.min (Z.max (SRSConfig.zc_length cfg) 0)
            (SRSConfig.bandwidth_in_subcarriers cfg) < n_fft ->
  exists freq_grid,
    signal = ifft_kernel freq_grid /\
    length freq_grid = Z.to_nat n_fft /\
    forall m : nat,
      Z.of_nat m < Z.min (Z.max (SRSConfig.zc_length cfg) 0)
                         (SRSConfig.bandwidth_in_subcarriers cfg) ->
      freq_grid !! Z.to_nat ((MappingInfo.k0 info + 2 * Z.of_nat m - n_fft / 2)
                             mod n_fft)
      = Some (cmul (zc_phasor (MappingInfo.root_index info) (Z.of_nat m)
                              (SRSConfig.zc_length cfg))
                   (shift_phasor (SRSConfig.cyclic_shift cfg) (Z.of_nat m))).
Proof.
  intros Hv Hrun Hfits.
  pose proof (bandwidth_in_subcarriers_valid cfg Hv) as [Hb _].
  destruct (generate_srs_inv _ _ _ _ _ Hrun)
    as (hopping & freq & k0 & _ & _ & Hmap & _ & -> & ->).
  cbn [MappingInfo.k0 MappingInfo.root_index].
  set (shifted :=
    apply_cyclic_shift
      (np.slice_to
         (generate_zadoff_chu (HoppingState.sequence_number hopping)
                              (SRSConfig.zc_length cfg))
         (SRSConfig.bandwidth_in_subcarriers cfg))
      (SRSConfig.alpha cfg)) in *.
  assert (Hlen : Z.of_nat (length shifted)
                 = Z.min (Z.max (SRSConfig.zc_length cfg) 0)
                         (SRSConfig.bandwidth_in_subcarriers cfg))
    by (apply length_srs_sequence, Hv).
  destruct (map_to_frequency_grid_eval shifted cfg n_fft ltac:(lia))
    as (g & Hmap' & Hg & Hfilled & _).
  rewrite Hmap in Hmap'. injection Hmap' as -> ->.
  exists (np.fft_ifftshift g). split; [reflexivity|].
  split; [rewrite length_ifftshift; exact Hg|].
  intros m Hm.
  apply post_init_ok in Hv. destruct Hv as (_ & Hcomb & _).
  pose proof (comb_bins_inside n_fft (Z.of_nat (length shifted))
                (SRSConfig.transmission_comb cfg) (Z.of_nat m) Hcomb
                ltac:(lia) ltac:(lia)) as Hin.
  rewrite (ifftshift_lookup_bin g n_fft) by lia.
  apply Hfilled; [|exact Hin].
  subst shifted. apply apply_cyclic_shift_lookup.
  unfold np.slice_to.
  destruct (Z.leb_spec 0 (SRSConfig.bandwidth_in_subcarriers cfg)); [|lia].
  rewrite lookup_take_lt by lia.
  apply generate_zadoff_chu_lookup. lia.
Qed.

Lemma generate_srs_frequency_content_witness :
  SRSConfig.valid wide_config /\
  2 * Z.min (Z.max (SRSConfig.zc_length wide_config) 0)
            (SRSConfig.bandwidth_in_subcarriers wide_config) < default_n_fft /\
  exists signal info freq_grid,
    @generate_srs unit_numerics wide_config 4 default_n_fft
    = Ok (signal, info) /\
    signal = @ifft_kernel unit_numerics freq_grid /\
    length freq_grid = Z.to_nat default_n_fft.
Proof.
  split; [reflexivity|]. split; [reflexivity|].
  destruct (@generate_srs_eval_hopping unit_numerics wide_config 4
              default_n_fft (HoppingState.mk 0 0 0 0))
    as (signal & info & Hrun); [reflexivity | reflexivity | reflexivity |].
  destruct (@generate_srs_frequency_content unit_numerics wide_config 4
              default_n_fft signal info)
    as (freq & Hsig & Hlen & _); [reflexivity | exact Hrun | reflexivity |].
  exists signal, info, freq. split; [exact Hrun|]. split; [exact Hsig | exact Hlen].
Defined.

(** ** The correlation metric, error behaviour *)

Lemma normalized_cross_correlation_equal_lengths `{Numerics}
  (a b : list complex) :
  length a = length b -> exists v, normalized_cross_correlation a b = Ok v.
Proof.
  intros Hlen. unfold normalized_cross_correlation.
  destruct (Nat.eqb_spec (length a) (length b)); [|contradiction].
  cbn [negb].
  destruct (PrimFloat.eqb (linalg_norm a) 0 || PrimFloat.eqb (linalg_norm b) 0);
    eauto.
Qed.

Lemma normalized_cross_correlation_mismatch `{Numerics} (a b : list complex) :
  length a <> length b ->
  exists msg, normalized_cross_correlation a b = Raise (ValueError msg).
Proof.
  intros Hlen. unfold normalized_cross_correlation.
  destruct (Nat.eqb_spec (length a) (length b)); [contradiction|].
  cbn [negb]. eauto.
Qed.

(** X17. [normalized_cross_correlation] raises exactly when the two
    signals differ in length, and then a [ValueError]; on signals of equal
    length it returns a value. *)
Theorem normalized_cross_correlation_length_check `{Numerics}
  (a b : list complex) :
  ((exists msg, normalized_cross_correlation a b = Raise (ValueError msg))
   <-> length a <> length b) /\
  ((exists v, normalized_cross_correlation a b = Ok v)
   <-> length a = length b).
Proof.
  split.
  - split.
    + intros (msg & Hmsg) Hlen.
      destruct (normalized_cross_correlation_equal_lengths a b Hlen). congruence.
    + apply normalized_cross_correlation_mismatch.
  - split.
    + intros (v & Hv). destruct (Nat.eq_dec (length a) (length b)); [assumption|].
      destruct (normalized_cross_correlation_mismatch a b) as (msg & Hmsg);
        [assumption | congruence].
    + apply normalized_cross_correlation_equal_lengths.
Qed.

(** ** The test driver *)

Lemma for_each_collect {I A : Type} (g : I -> list A)
  (body : I -> list A -> result (list A)) (items : list I) :
  (forall x, x ∈ items -> forall acc, body x acc = Ok (acc ++ g x)) ->
  forall acc, for_each items body acc = Ok (acc ++ (items ≫= g)).
Proof.
  induction items as [|x items IH]; intros Hbody acc.
  - simpl. rewrite app_nil_r. reflexivity.
  - cbn [for_each]. rewrite Hbody by left. cbn [bind].
    rewrite IH by (intros y Hy; apply Hbody; right; exact Hy).
    rewrite <- app_assoc. reflexivity.
Qed.

Lemma map_result_Forall2 {I A : Type} (f : I -> result A) (items : list I)
  (ys : list A) :
  map_result f items = Ok ys <-> Forall2 (fun x y => f x = Ok y) items ys.
Proof.
  revert ys. induction items as [|x items IH]; intros ys.
  - simpl. split.
    + intros Hr. injection Hr as <-. constructor.
    + intros Hf. inversion Hf. reflexivity.
  - cbn [map_result]. split.
    + destruct (f x) as [y|e] eqn:Hx; cbn [bind]; [|discriminate].
      destruct (map_result f items) as [ys'|e]; cbn [bind]; [|discriminate].
      intros Hr. injection Hr as <-. constructor; [exact Hx|].
      apply IH. reflexivity.
    + intros Hf. inversion Hf as [|x' y items' ys' Hx Hrest]; subst.
      rewrite Hx. cbn [bind].
      apply IH in Hrest. rewrite Hrest. reflexivity.
Qed.

Lemma map_result_first_error {I A : Type} (f : I -> result A)
  (pre post : list I) (x : I) (e : PyError) :
  Forall (fun y => exists v, f y = Ok v) pre -> f x = Raise e ->
  map_result f (pre ++ x :: post) = Raise e.
Proof.
  intros Hpre Hx. induction Hpre as [|y pre (v & Hy) _ IH].
  - simpl. rewrite Hx. reflexivity.
  - cbn [app map_result]. rewrite Hy. cbn [bind]. rewrite IH. reflexivity.
Qed.

Lemma generate_signals_map_result `{Numerics} (configs : list SRSConfig.t)
  (subframe : Z) :
  generate_signals configs subframe = map_result (signal_of subframe) configs.
Proof.
  unfold generate_signals.
  assert (Hgen : forall acc,
    for_each configs (fun cfg results =>
      let* '(sig, info) := generate_srs cfg subframe default_n_fft in
      Ok (results ++ [SRSResult.mk sig info])) acc
    = let* ys := map_result (signal_of subframe) configs in Ok (acc ++ ys)).
  { induction configs as [|cfg configs IH]; intros acc.
    - simpl. rewrite app_nil_r. reflexivity.
    - cbn [for_each map_result]. unfold signal_of at 1.
      destruct (generate_srs cfg subframe default_n_fft) as [[sig info]|e];
        cbn [bind]; [|reflexivity].
      rewrite IH.
      destruct (map_result (signal_of subframe) configs) as [ys|e];
        cbn [bind]; [|reflexivity].
      rewrite <- app_assoc. reflexivity. }
  rewrite Hgen.
  destruct (map_result (signal_of subframe) configs); reflexivity.
Qed.

Lemma signal_of_Ok `{Numerics} (subframe : Z) (cfg : SRSConfig.t)
  (r : SRSResult.t) :
  signal_of subframe cfg = Ok r <->
  generate_srs cfg subframe default_n_fft
  = Ok (SRSResult.signal r, SRSResult.info r).
Proof.
  unfold signal_of.
  destruct (generate_srs cfg subframe default_n_fft) as [[sig info]|e];
    cbn [bind]; destruct r as [s i]; cbn; split; intros Hr;
    try discriminate; injection Hr as <- <-; reflexivity.
Qed.

(** X18. [generate_signals] returns exactly when [generate_srs] returns on
    every configuration of the list, for the given subframe and the
    default transform size; it then yields one result per configuration,
    in the order of the list, each holding the signal and [MappingInfo]
    of its configuration. *)
Theorem generate_signals_returns `{Numerics} (configs : list SRSConfig.t)
  (subframe : Z) :
  ((exists results, generate_signals configs subframe = Ok results) <->
   Forall (fun cfg => exists signal info,
             generate_srs cfg subframe default_n_fft = Ok (signal, info))
          configs) /\
  forall results,
    generate_signals configs subframe = Ok results ->
    length results = length configs /\
    forall (i : nat) cfg, configs !! i = Some cfg ->
      exists r, results !! i = Some r /\
        generate_srs cfg subframe default_n_fft
        = Ok (SRSResult.signal r, SRSResult.info r).
Proof.
  rewrite generate_signals_map_result. split; [split|].
  - intros (results & Hr). apply map_result_Forall2 in Hr.
    induction Hr as [|cfg r configs results Hcfg _ IH]; constructor; [|exact IH].
    apply signal_of_Ok in Hcfg. eauto.
  - intros Hall. induction Hall as [|cfg configs (sig & info & Hcfg) _ (rs & IH)].
    + exists []. reflexivity.
    + exists (SRSResult.mk sig info :: rs). cbn [map_result].
      unfold signal_of at 1. rewrite Hcfg. cbn [bind]. rewrite IH. reflexivity.
  - intros results Hr. apply map_result_Forall2 in Hr.
    split; [symmetry; exact (Forall2_length _ _ _ Hr)|].
    intros i cfg Hi.
    destruct (Forall2_lookup_l _ _ _ _ _ Hr Hi) as (r & Hri & Hrun).
    exists r. split; [exact Hri|]. apply signal_of_Ok, Hrun.
Qed.

(** X19. [generate_signals] stops at the first configuration that is not
    active on the subframe: when the configurations before it all give a
    signal, the call raises the [ValueError] of that configuration, naming
    the subframe and its periodicity, and nothing is returned for the
    earlier ones. *)
Theorem generate_signals_first_inactive `{Numerics}
  (pre post : list SRSConfig.t) (cfg : SRSConfig.t) (subframe : Z) :
  Forall (fun c => exists signal info,
            generate_srs c subframe default_n_fft = Ok (signal, info)) pre ->
  SRSConfig.is_active_subframe cfg subframe = false ->
  generate_signals (pre ++ cfg :: post) subframe
  = Raise (ValueError (inactive_message subframe cfg)).
Proof.
  intros Hpre Hinactive. rewrite generate_signals_map_result.
  apply map_result_first_error.
  - eapply Forall_impl; [exact Hpre|].
    intros c (sig & info & Hc). exists (SRSResult.mk sig info).
    apply signal_of_Ok. exact Hc.
  - unfold signal_of, generate_srs. rewrite Hinactive. reflexivity.
Qed.

Lemma generate_signals_first_inactive_witness :
  Forall (fun c => exists signal info,
            @generate_srs unit_numerics c 4 default_n_fft = Ok (signal, info))
         [tester_config; tester_config_hopping] /\
  SRSConfig.is_active_subframe period_3_config 4 = false /\
  @generate_signals unit_numerics
    ([tester_config; tester_config_hopping]
     ++ period_3_config :: [tester_config_no_group_hopping]) 4
  = Raise (ValueError "Subframe 4 is not active for this UE (T_srs=3).").
Proof.
  assert (Hpre : Forall (fun c => exists signal info,
                    @generate_srs unit_numerics c 4 default_n_fft
                    = Ok (signal, info))
                   [tester_config; tester_config_hopping]).
  { repeat constructor.
    - destruct (@generate_srs_eval unit_numerics tester_config 4 default_n_fft)
        as (h & g & k & _ & _ & Hrun); [lia | reflexivity | reflexivity |].
      eauto.
    - destruct (@generate_srs_eval unit_numerics tester_config_hopping 4
                  default_n_fft)
        as (h & g & k & _ & _ & Hrun); [lia | reflexivity | reflexivity |].
      eauto. }
  split; [exact Hpre|]. split; [reflexivity|].
  exact (@generate_signals_first_inactive unit_numerics
           [tester_config; tester_config_hopping]
           [tester_config_no_group_hopping] period_3_config 4 Hpre eq_refl).
Defined.

(** *** Two-dimensional arrays *)

Lemma np_item_in_range {A : Type} (a : list A) (i : Z) (x : A) :
  0 <= i -> a !! Z.to_nat i = Some x -> np.item a i = Ok x.
Proof.
  intros Hi Hx. unfold np.item.
  pose proof (lookup_lt_Some _ _ _ Hx).
  rewrite np_index_nonneg by lia. cbn [bind]. rewrite Hx. reflexivity.
Qed.

Lemma set2_shape {A : Type} (n m : nat) (a : list (list A)) (i j : Z) (v : A) :
  shape n m a -> 0 <= i < Z.of_nat n -> 0 <= j < Z.of_nat m ->
  exists a',
    np.set2 a i j v = Ok a' /\
    shape n m a' /\
    cell a' (Z.to_nat i) (Z.to_nat j) = Some v /\
    forall i' j' : nat,
      (i', j') <> (Z.to_nat i, Z.to_nat j) -> cell a' i' j' = cell a i' j'.
Proof.
  intros [Hrows Hcols] Hi Hj.
  destruct (lookup_lt_is_Some_2 a (Z.to_nat i) ltac:(lia)) as (row & Hrow).
  assert (Hlen : length row = m).
  { rewrite Forall_forall in Hcols. apply Hcols.
    apply list_elem_of_lookup. eauto. }
  unfold np.set2. rewrite np_index_nonneg by lia. cbn [bind].
  rewrite (np_item_in_range a i row) by (lia || assumption). cbn [bind].
  unfold np.set. rewrite np_index_nonneg by lia. cbn [bind].
  eexists. split; [reflexivity|]. split; [|split].
  - split; [rewrite length_insert; exact Hrows|].
    apply Forall_insert; [exact Hcols|]. rewrite length_insert. exact Hlen.
  - unfold cell. rewrite list_lookup_insert_eq by lia.
    apply list_lookup_insert_eq. lia.
  - intros i' j' Hne. unfold cell.
    destruct (decide (i' = Z.to_nat i)) as [->|Hi'].
    + rewrite list_lookup_insert_eq by lia. rewrite Hrow.
      apply list_lookup_insert_ne. congruence.
    + rewrite list_lookup_insert_ne by congruence. reflexivity.
Qed.

Lemma get2_shape {A : Type} (n m : nat) (a : list (list A)) (i j : Z) :
  shape n m a -> 0 <= i < Z.of_nat n -> 0 <= j < Z.of_nat m ->
  exists v, np.get2 a i j = Ok v /\ cell a (Z.to_nat i) (Z.to_nat j) = Some v.
Proof.
  intros [Hrows Hcols] Hi Hj.
  destruct (lookup_lt_is_Some_2 a (Z.to_nat i) ltac:(lia)) as (row & Hrow).
  assert (Hlen : length row = m).
  { rewrite Forall_forall in Hcols. apply Hcols.
    apply list_elem_of_lookup. eauto. }
  destruct (lookup_lt_is_Some_2 row (Z.to_nat j) ltac:(lia)) as (v & Hv).
  exists v. unfold np.get2, cell.
  rewrite (np_item_in_range a i row) by (lia || assumption). cbn [bind].
  rewrite Hrow. split; [|exact Hv].
  apply np_item_in_range; [lia | exact Hv].
Qed.

Lemma shape_zeros2 {A : Type} (zero : A) (n : nat) :
  np.zeros2 zero (Z.of_nat n) (Z.of_nat n)
  = Ok (replicate n (replicate n zero)) /\
  shape n n (replicate n (replicate n zero)).
Proof.
  unfold np.zeros2.
  destruct (Z.ltb_spec (Z.of_nat n) 0); [lia|]. cbn [orb].
  rewrite Nat2Z.id. split; [reflexivity|].
  split; [apply length_replicate|].
  apply Forall_replicate. apply length_replicate.
Qed.

Lemma product2_in_range (n : nat) (i j : Z) :
  (i, j) ∈ itertools_product2 (py_range 0 (Z.of_nat n)) <->
  0 <= i < Z.of_nat n /\ 0 <= j < Z.of_nat n.
Proof.
  unfold itertools_product2, py_range.
  rewrite list_elem_of_In, in_prod_iff, <- !list_elem_of_In, !elem_of_seqZ.
  lia.
Qed.

(** A loop that writes one cell per index pair: every pair of the list
    ends up holding a value allowed for it, and the other cells keep
    theirs. *)
Lemma for_each_fill_cells {A : Type} (n : nat) (R : Z -> Z -> A -> Prop)
  (body : Z * Z -> list (list A) -> result (list (list A))) :
  (forall i j a, 0 <= i < Z.of_nat n -> 0 <= j < Z.of_nat n -> shape n n a ->
     exists v, R i j v /\ body (i, j) a = np.set2 a i j v) ->
  forall (ps : list (Z * Z)) (a : list (list A)),
    Forall (fun p => 0 <= fst p < Z.of_nat n /\ 0 <= snd p < Z.of_nat n) ps ->
    shape n n a ->
    exists a',
      for_each ps body a = Ok a' /\
      shape n n a' /\
      (forall i j, (i, j) ∈ ps ->
         exists v, R i j v /\ cell a' (Z.to_nat i) (Z.to_nat j) = Some v) /\
      (forall i j, 0 <= i -> 0 <= j -> (i, j) ∉ ps ->
         cell a' (Z.to_nat i) (Z.to_nat j) = cell a (Z.to_nat i) (Z.to_nat j)).
Proof.
  intros Hbody ps. induction ps as [|[i0 j0] ps IH]; intros a Hps Ha.
  - exists a. split; [reflexivity|]. split; [exact Ha|].
    split; [|reflexivity].
    intros i j Hin. inversion Hin.
  - apply Forall_cons in Hps as [[Hi0 Hj0] Hps]. cbn in Hi0, Hj0.
    destruct (Hbody i0 j0 a Hi0 Hj0 Ha) as (v0 & Hv0 & Hstep).
    destruct (set2_shape n n a i0 j0 v0 Ha Hi0 Hj0)
      as (a1 & Hset & Ha1 & Hcell & Hother).
    destruct (IH a1 Hps Ha1) as (a' & Hrun & Ha' & Hin & Hout).
    exists a'. cbn [for_each]. rewrite Hstep, Hset. cbn [bind].
    split; [exact Hrun|]. split; [exact Ha'|]. split.
    + intros i j Hij.
      destruct (decide ((i, j) ∈ ps)) as [Hps'|Hps']; [apply Hin, Hps'|].
      apply elem_of_cons in Hij as [Heq|Hij]; [|contradiction].
      injection Heq as -> ->.
      exists v0. split; [exact Hv0|].
      rewrite Hout by (lia || assumption). exact Hcell.
    + intros i j Hi Hj Hij.
      apply not_elem_of_cons in Hij as [Hne Hij].
      rewrite Hout by assumption. apply Hother.
      intros Heq. injection Heq as Hei Hej.
      apply Hne. f_equal; lia.
Qed.

(** A loop one of whose passes always raises a [ValueError], the passes
    before it raising nothing else, ends in a [ValueError]. *)
Lemma for_each_value_error {I S : Type} (P : S -> Prop)
  (body : I -> S -> result S) (pre post : list I) (x : I) :
  (forall y s, y ∈ pre -> P s ->
     (exists s', body y s = Ok s' /\ P s')
     \/ exists msg, body y s = Raise (ValueError msg)) ->
  (forall s, P s -> exists msg, body x s = Raise (ValueError msg)) ->
  forall s, P s ->
    exists msg, for_each (pre ++ x :: post) body s = Raise (ValueError msg).
Proof.
  intros Hpre Hx. induction pre as [|y pre IH]; intros s Hs.
  - destruct (Hx s Hs) as (msg & Hmsg). exists msg.
    cbn [app for_each]. rewrite Hmsg. reflexivity.
  - cbn [app for_each].
    destruct (Hpre y s ltac:(left) Hs) as [(s' & Hy & Hs')|(msg & Hy)].
    + rewrite Hy. cbn [bind]. apply IH; [|exact Hs'].
      intros y' t Hy'. apply Hpre. right. exact Hy'.
    + exists msg. rewrite Hy. reflexivity.
Qed.

Lemma correlation_matrix_same_length `{Numerics} (results : list SRSResult.t)
  (len : nat) :
  Forall (fun r => length (SRSResult.signal r) = len) results ->
  exists corr,
    correlation_matrix results = Ok corr /\
    shape (length results) (length results) corr /\
    forall (i j : nat) ri rj,
      results !! i = Some ri -> results !! j = Some rj ->
      exists v,
        normalized_cross_correlation (SRSResult.signal ri)
                                     (SRSResult.signal rj) = Ok v /\
        cell corr i j = Some v.
Proof.
  intros Hlen. unfold correlation_matrix.
  set (n := length results).
  destruct (shape_zeros2 0%float n) as [Hz Hshape].
  rewrite Hz. cbn [bind].
  set (R := fun (i j : Z) (v : float) =>
    exists ri rj, results !! Z.to_nat i = Some ri /\
                  results !! Z.to_nat j = Some rj /\
                  normalized_cross_correlation (SRSResult.signal ri)
                                               (SRSResult.signal rj) = Ok v).
  destruct (for_each_fill_cells n R
    (fun '(i, j) corr =>
       let* ri := np.item results i in
       let* rj := np.item results j in
       let* v := normalized_cross_correlation (SRSResult.signal ri)
                                              (SRSResult.signal rj) in
       np.set2 corr i j v))
    with (ps := itertools_product2 (py_range 0 (Z.of_nat n)))
         (a := replicate n (replicate n 0%float))
    as (corr & Hrun & Hcorr & Hin & _).
  - intros i j a Hi Hj Ha.
    destruct (lookup_lt_is_Some_2 results (Z.to_nat i) ltac:(lia)) as (ri & Hri).
    destruct (lookup_lt_is_Some_2 results (Z.to_nat j) ltac:(lia)) as (rj & Hrj).
    destruct (normalized_cross_correlation_equal_lengths
                (SRSResult.signal ri) (SRSResult.signal rj)) as (v & Hv).
    { rewrite Forall_forall in Hlen.
      rewrite (Hlen ri), (Hlen rj); [reflexivity | |];
        apply list_elem_of_lookup; eauto. }
    exists v. split; [exists ri, rj; auto|].
    rewrite (np_item_in_range results i ri), (np_item_in_range results j rj)
      by (lia || assumption).
    cbn [bind]. rewrite Hv. reflexivity.
  - apply Forall_forall. intros [i j] Hij.
    apply product2_in_range in Hij. exact Hij.
  - exact Hshape.
  - exists corr. split; [exact Hrun|]. split; [exact Hcorr|].
    intros i j ri rj Hri Hrj.
    destruct (Hin (Z.of_nat i) (Z.of_nat j)) as (v & (ri' & rj' & Hri' & Hrj' & Hv) & Hcell).
    { apply product2_in_range.
      apply lookup_lt_Some in Hri. apply lookup_lt_Some in Hrj. lia. }
    rewrite Nat2Z.id in Hri', Hrj'. rewrite !Nat2Z.id in Hcell.
    rewrite Hri in Hri'. rewrite Hrj in Hrj'.
    injection Hri' as <-. injection Hrj' as <-.
    exists v. split; [exact Hv | exact Hcell].
Qed.

(** X20. When all the signals have the same length, [correlation_matrix]
    returns a square array with one row and one column per result, whose
    cell [(i, j)] is the value [normalized_cross_correlation] gives for
    the signals of results [i] and [j]. *)
Theorem correlation_matrix_entries `{Numerics} (results : list SRSResult.t)
  (len : nat) :
  Forall (fun r => length (SRSResult.signal r) = len) results ->
  exists corr,
    correlation_matrix results = Ok corr /\
    shape (length results) (length results) corr /\
    forall (i j : nat) ri rj,
      results !! i = Some ri -> results !! j = Some rj ->
      exists v,
        normalized_cross_correlation (SRSResult.signal ri)
                                     (SRSResult.signal rj) = Ok v /\
        cell corr i j = Some v.
Proof. exact (correlation_matrix_same_length results len). Qed.

Lemma correlation_matrix_entries_witness :
  Forall (fun r => length (SRSResult.signal r) = 2%nat) sample_results /\
  exists corr,
    @correlation_matrix (numpy_correlation unit_numerics) sample_results
    = Ok corr /\
    shape 3 3 corr /\
    cell corr 0 0 = Some 1%float /\
    cell corr 0 1 = Some 0%float /\
    cell corr 0 2 = Some (1 / PrimFloat.sqrt 2)%float /\
    cell corr 2 0 = Some (1 / PrimFloat.sqrt 2)%float.
Proof.
  assert (Hlen : Forall (fun r => length (SRSResult.signal r) = 2%nat)
                        sample_results) by (repeat constructor).
  split; [exact Hlen|].
  destruct (@correlation_matrix_entries (numpy_correlation unit_numerics)
              sample_results 2 Hlen) as (corr & Hrun & Hshape & Hcells).
  exists corr. split; [exact Hrun|]. split; [exact Hshape|].
  assert (Hcell : forall (i j : nat) ri rj v,
            sample_results !! i = Some ri -> sample_results !! j = Some rj ->
            @normalized_cross_correlation (numpy_correlation unit_numerics)
              (SRSResult.signal ri) (SRSResult.signal rj) = Ok v ->
            cell corr i j = Some v).
  { intros i j ri rj v Hi Hj Hv.
    destruct (Hcells i j ri rj Hi Hj) as (w & Hw & Hc). congruence. }
  split; [|split; [|split]].
  - eapply (Hcell 0%nat 0%nat); [reflexivity | reflexivity |].
    vm_compute. reflexivity.
  - eapply (Hcell 0%nat 1%nat); [reflexivity | reflexivity |].
    vm_compute. reflexivity.
  - eapply (Hcell 0%nat 2%nat); [reflexivity | reflexivity |].
    vm_compute. reflexivity.
  - eapply (Hcell 2%nat 0%nat); [reflexivity | reflexivity |].
    vm_compute. reflexivity.
Defined.

Lemma correlation_matrix_mismatch `{Numerics} (results : list SRSResult.t) :
  ((exists e, correlation_matrix results = Raise e) ->
   exists (i j : nat) ri rj,
     results !! i = Some ri /\ results !! j = Some rj /\
     length (SRSResult.signal ri) <> length (SRSResult.signal rj)) /\
  ((exists (i j : nat) ri rj,
      results !! i = Some ri /\ results !! j = Some rj /\
      length (SRSResult.signal ri) <> length (SRSResult.signal rj)) ->
   exists msg, correlation_matrix results = Raise (ValueError msg)).
Proof.
  split.
  - intros (msg & Hmsg).
    destruct results as [|r0 results].
    + vm_compute in Hmsg. discriminate.
    + destruct (decide (Forall (fun r => length (SRSResult.signal r)
                                         = length (SRSResult.signal r0))
                               (r0 :: results))) as [Hall|Hnot].
      * destruct (correlation_matrix_same_length (r0 :: results) _ Hall)
          as (corr & Hrun & _). congruence.
      * apply not_Forall_Exists in Hnot; [|intros r; apply _].
        apply Exists_exists in Hnot as (r & Hr & Hne).
        apply list_elem_of_lookup in Hr as (j & Hj).
        exists j, 0%nat, r, r0. split; [exact Hj|]. split; [reflexivity|].
        exact Hne.
  - intros (i & j & ri & rj & Hri & Hrj & Hne).
    unfold correlation_matrix. set (n := length results).
    destruct (shape_zeros2 0%float n) as [Hz Hshape].
    rewrite Hz. cbn [bind].
    assert (Hin : (Z.of_nat i, Z.of_nat j)
                  ∈ itertools_product2 (py_range 0 (Z.of_nat n))).
    { apply product2_in_range.
      apply lookup_lt_Some in Hri. apply lookup_lt_Some in Hrj. lia. }
    apply list_elem_of_split in Hin as (pre & post & Hsplit).
    rewrite Hsplit.
    apply (for_each_value_error (shape n n)); [| |exact Hshape].
    + intros [i' j'] a Hpre Ha.
      assert (Hrange : 0 <= i' < Z.of_nat n /\ 0 <= j' < Z.of_nat n).
      { apply product2_in_range. rewrite Hsplit.
        apply elem_of_app. left. exact Hpre. }
      destruct Hrange as [Hi' Hj'].
      destruct (lookup_lt_is_Some_2 results (Z.to_nat i') ltac:(lia)) as (ri' & Hri').
      destruct (lookup_lt_is_Some_2 results (Z.to_nat j') ltac:(lia)) as (rj' & Hrj').
      rewrite (np_item_in_range results i' ri'),
        (np_item_in_range results j' rj') by (lia || assumption).
      cbn [bind].
      destruct (Nat.eq_dec (length (SRSResult.signal ri'))
                           (length (SRSResult.signal rj'))) as [Heq|Hdiff].
      * destruct (normalized_cross_correlation_equal_lengths _ _ Heq) as (v & Hv).
        rewrite Hv. cbn [bind].
        destruct (set2_shape n n a i' j' v Ha Hi' Hj') as (a' & Hset & Ha' & _).
        left. eauto.
      * destruct (normalized_cross_correlation_mismatch _ _ Hdiff) as (msg & Hmsg).
        rewrite Hmsg. right. eauto.
    + intros a Ha.
      rewrite (np_item_in_range results (Z.of_nat i) ri),
        (np_item_in_range results (Z.of_nat j) rj)
        by (lia || rewrite Nat2Z.id; assumption).
      cbn [bind].
      destruct (normalized_cross_correlation_mismatch _ _ Hne) as (msg & Hmsg).
      rewrite Hmsg. eauto.
Qed.

(** X21. [correlation_matrix] raises exactly when two of the signals
    differ in length, and what it raises is then a [ValueError]; it never
    fails on an index. *)
Theorem correlation_matrix_raises_iff `{Numerics} (results : list SRSResult.t) :
  ((exists e, correlation_matrix results = Raise e) <->
   exists (i j : nat) ri rj,
     results !! i = Some ri /\ results !! j = Some rj /\
     length (SRSResult.signal ri) <> length (SRSResult.signal rj)) /\
  (forall e, correlation_matrix results = Raise e ->
             exists msg, e = ValueError msg).
Proof.
  destruct (correlation_matrix_mismatch results) as [Hto Hfrom].
  split; [split|].
  - exact Hto.
  - intros Hmis. destruct (Hfrom Hmis) as (msg & Hmsg). eauto.
  - intros e He. destruct (Hfrom (Hto (ex_intro _ e He))) as (msg & Hmsg).
    exists msg. congruence.
Qed.

(** X22. On a square array, [highlight_pairs] returns the triples
    [(i, j, corr[i, j])] with [i < j] whose value is strictly above the
    threshold, and only those: nothing from the diagonal or below it, and
    no value at or under the threshold. *)
Theorem highlight_pairs_upper_triangle (corr : list (list float))
  (threshold : float) (n : nat) :
  shape n n corr ->
  exists pairs,
    highlight_pairs corr threshold = Ok pairs /\
    forall (i j : Z) (v : float),
      (i, j, v) ∈ pairs <->
      0 <= i < j /\ j < Z.of_nat n /\
      cell corr (Z.to_nat i) (Z.to_nat j) = Some v /\
      PrimFloat.ltb threshold v = true.
Proof.
  intros Hshape. pose proof Hshape as [Hrows _].
  set (h := fun (i j : Z) =>
    match cell corr (Z.to_nat i) (Z.to_nat j) with
    | Some v => if PrimFloat.ltb threshold v then [(i, j, v)] else []
    | None => []
    end).
  assert (Hinner : forall i, 0 <= i < Z.of_nat n -> forall acc,
    for_range (i + 1) (Z.of_nat n) (fun j pairs =>
      let* v := np.get2 corr i j in
      if PrimFloat.ltb threshold v then Ok (pairs ++ [(i, j, v)])
      else Ok pairs) acc
    = Ok (acc ++ (py_range (i + 1) (Z.of_nat n) ≫= h i))).
  { intros i Hi acc. unfold for_range. apply for_each_collect.
    intros j Hj acc'. apply elem_of_seqZ in Hj.
    destruct (get2_shape n n corr i j Hshape Hi ltac:(lia)) as (v & Hget & Hcell).
    rewrite Hget. cbn [bind]. unfold h. rewrite Hcell.
    destruct (PrimFloat.ltb threshold v); [reflexivity|].
    rewrite app_nil_r. reflexivity. }
  exists (py_range 0 (Z.of_nat n)
          ≫= fun i => py_range (i + 1) (Z.of_nat n) ≫= h i).
  split.
  - unfold highlight_pairs. rewrite Hrows. unfold for_range at 1.
    rewrite (for_each_collect
      (fun i => py_range (i + 1) (Z.of_nat n) ≫= h i)).
    + reflexivity.
    + intros i Hi acc. apply elem_of_seqZ in Hi. apply Hinner. lia.
  - intros i j v. rewrite list_elem_of_bind. split.
    + intros (i' & Hin & Hi'). apply list_elem_of_bind in Hin as (j' & Hin & Hj').
      apply elem_of_seqZ in Hi'. apply elem_of_seqZ in Hj'.
      unfold h in Hin.
      destruct (cell corr (Z.to_nat i') (Z.to_nat j')) as [w|] eqn:Hcell;
        [|inversion Hin].
      destruct (PrimFloat.ltb threshold w) eqn:Hlt; [|inversion Hin].
      apply list_elem_of_singleton in Hin. injection Hin as -> -> ->.
      repeat split; try lia; assumption.
    + intros (Hij & Hj & Hcell & Hlt).
      exists i. split; [|apply elem_of_seqZ; lia].
      apply list_elem_of_bind. exists j. split; [|apply elem_of_seqZ; lia].
      unfold h. rewrite Hcell, Hlt. apply list_elem_of_singleton. reflexivity.
Qed.

Lemma highlight_pairs_upper_triangle_witness :
  shape 2 2 [[1%float; 0.5%float]; [0.5%float; 1%float]] /\
  exists pairs,
    highlight_pairs [[1%float; 0.5%float]; [0.5%float; 1%float]]
      default_threshold = Ok pairs /\
    (0, 1, 0.5%float) ∈ pairs.
Proof.
  assert (Hshape : shape 2 2 [[1%float; 0.5%float]; [0.5%float; 1%float]])
    by (split; [reflexivity | repeat constructor]).
  split; [exact Hshape|].
  destruct (highlight_pairs_upper_triangle
              [[1%float; 0.5%float]; [0.5%float; 1%float]] default_threshold 2
              Hshape) as (pairs & Hrun & Hspec).
  exists pairs. split; [exact Hrun|].
  apply Hspec. repeat split; try lia; reflexivity.
Defined.

(** ** The configurations of the test driver *)

Lemma build_configurations_value :
  build_configurations
  = Ok [ SRSConfig.mk 0 2 2 1 true false 0 0%float 0 50 None;
         SRSConfig.mk 1 2 2 1 true true 1 (np.pi / 4)%float 1 50 None;
         SRSConfig.mk 12 2 2 1 false true 0 (np.pi / 2)%float 2 50 None;
         SRSConfig.mk 37 2 2 1 false false 1 (3 * np.pi / 4)%float 3 50 None ].
Proof. reflexivity. Qed.

(** X23. The test driver's pipeline
    [generate_signals(build_configurations(), subframe)] returns exactly
    on the even, non-negative subframes: the four configurations are
    accepted by the constructor, all have periodicity 2, and two of them
    use group hopping.  It then gives four results whose [m_sc] are 48,
    96, 144 and 192. *)
Theorem tester_pipeline_returns_iff `{Numerics} (subframe : Z) :
  ((exists results,
      (let* configs := build_configurations in
       generate_signals configs subframe) = Ok results) <->
   0 <= subframe /\ subframe mod 2 = 0) /\
  forall results,
    (let* configs := build_configurations in
     generate_signals configs subframe) = Ok results ->
    map (fun r => MappingInfo.m_sc (SRSResult.info r)) results
    = [48; 96; 144; 192].
Proof.
  rewrite build_configurations_value. cbn [bind].
  set (c0 := SRSConfig.mk 0 2 2 1 true false 0 0%float 0 50 None).
  set (c1 := SRSConfig.mk 1 2 2 1 true true 1 (np.pi / 4)%float 1 50 None).
  set (c2 := SRSConfig.mk 12 2 2 1 false true 0 (np.pi / 2)%float 2 50 None).
  set (c3 := SRSConfig.mk 37 2 2 1 false false 1 (3 * np.pi / 4)%float 3 50 None).
  assert (Hactive : forall c, c ∈ [c0; c1; c2; c3] ->
            SRSConfig.is_active_subframe c subframe = (subframe mod 2 =? 0)).
  { intros c Hc. repeat (apply elem_of_cons in Hc as [->|Hc]; [reflexivity|]).
    inversion Hc. }
  rewrite generate_signals_map_result. split; [split|].
  - intros (results & Hr). apply map_result_Forall2 in Hr.
    inversion Hr as [|x r l rs H0 _]; subst.
    apply signal_of_Ok in H0.
    destruct (generate_srs_inv _ _ _ _ _ H0)
      as (hopping & freq & k0 & Hact & Hhop & _).
    rewrite (Hactive c0) in Hact by left. apply Z.eqb_eq in Hact.
    split; [|exact Hact].
    destruct (Z.lt_ge_cases subframe 0) as [Hneg|]; [|assumption].
    destruct (group_and_sequence_hopping_negative_slot c0 (subframe * 2)
                eq_refl ltac:(lia)) as (e & He).
    congruence.
  - intros (Hpos & Heven).
    assert (Hall : Forall (fun c => exists r, signal_of subframe c = Ok r)
                          [c0; c1; c2; c3]).
    { apply Forall_forall. intros c Hc.
      assert (exists hopping,
                group_and_sequence_hopping c (subframe * 2) = Ok hopping)
        as (hopping & Hhop)
        by (eexists; apply group_and_sequence_hopping_eval; lia).
      destruct (generate_srs_eval_hopping c subframe default_n_fft hopping)
        as (sig & info & Hrun);
        [rewrite (Hactive c Hc); apply Z.eqb_eq, Heven | exact Hhop
        | reflexivity |].
      exists (SRSResult.mk sig info). apply signal_of_Ok. exact Hrun. }
    apply Forall_cons in Hall as [(r0 & H0) Hall].
    apply Forall_cons in Hall as [(r1 & H1) Hall].
    apply Forall_cons in Hall as [(r2 & H2) Hall].
    apply Forall_cons in Hall as [(r3 & H3) _].
    exists [r0; r1; r2; r3]. cbn [map_result].
    rewrite H0, H1, H2, H3. reflexivity.
  - intros results Hr. apply map_result_Forall2 in Hr.
    repeat match goal with
           | Hf : Forall2 _ (_ :: _) _ |- _ =>
               inversion Hf; subst; clear Hf
           | Hf : Forall2 _ [] _ |- _ => inversion Hf; subst; clear Hf
           end.
    repeat match goal with
           | Hs : signal_of _ _ = Ok _ |- _ =>
               apply signal_of_Ok in Hs;
               destruct (generate_srs_inv _ _ _ _ _ Hs)
                 as (? & ? & ? & _ & _ & _ & _ & _ & ?);
               clear Hs
           end.
    cbn [map].
    repeat match goal with
           | Hi : SRSResult.info _ = _ |- _ => rewrite Hi; clear Hi
           end.
    reflexivity.
Qed.

(** ** The correlation metric in binary64 *)





Example sample_info_generated :
  exists signal,
    @generate_srs unit_numerics tester_config_hopping 4 64
    = Ok (signal, sample_info).
Proof. eexists. vm_compute. reflexivity. Qed.
